(** * Wealth projection engine: a shallow embedding of
      [src/services/WealthProjectionService.ts]

    The service has three entry points, [simulateWealthCurve],
    [generateAutoSuggestions] and [calculatePortfolioMetrics], and two private
    helpers, [getEventsForMonth] and [getMonthsDifference].

    Modelling choices.
    - A JavaScript [number] that is an input of the service is a finite
      value, modelled as an exact rational ([Q]): arithmetic on finite
      values is exact (no rounding error, no overflow).  The simulator only
      divides by the constants 12 and 100, so it stays inside [Q].  The
      analytics divide by computed quantities, so their intermediate and
      final results live in [num], which adds the IEEE special values
      [+Infinity], [-Infinity] and [NaN] (there is no negative zero).
    - Exactness bears on values, not on order: a product by a non-negative
      factor, a sum, [Math.max] and [Math.round] are monotone in double
      precision as well.  The theorems rest on comparisons, on the control
      flow and on values that doubles represent; a lemma that needs sums and
      products without rounding says so in its comment.
    - A [Date] is modelled by its local calendar fields; chronological
      comparison is the lexicographic order on them.
    - [new Date().getFullYear()] is the explicit argument [currentYear]. *)

From Stdlib Require Import ZArith QArith Qabs Qround Qminmax Qpower.
From Stdlib Require Import List Bool Lia Lqa String DecimalString.
From Stdlib Require Import Sorted.
Import ListNotations.

Local Open Scope Z_scope.

(** ** Dates *)

Module Date.

(** Local calendar fields of a JavaScript [Date]: [getMonth] is 0-based,
    [getDate] is the day of the month, [getTimeOfDay] the milliseconds
    elapsed since local midnight. *)
Record t : Type := mk {
  getFullYear : Z;
  getMonth : Z;
  getDate : Z;
  getTimeOfDay : Z
}.

(** [new Date(year, month, day)] for a month in 0..11 and a day that exists
    in that month (the only use in the service is day 1): local midnight. *)
Definition make (year month day : Z) : t := mk year month day 0.

(** Chronological order, as the relational operators on two [Date]
    objects compare their time values. *)
Definition compare (a b : t) : comparison :=
  match getFullYear a ?= getFullYear b with
  | Eq =>
      match getMonth a ?= getMonth b with
      | Eq =>
          match getDate a ?= getDate b with
          | Eq => getTimeOfDay a ?= getTimeOfDay b
          | c => c
          end
      | c => c
      end
  | c => c
  end.

Definition gtb (a b : t) : bool :=
  match compare a b with Gt => true | _ => false end.

Definition ltb (a b : t) : bool :=
  match compare a b with Lt => true | _ => false end.

End Date.

(** ** Events *)

Inductive EventType : Type :=
| INCOME | EXPENSE | INVESTMENT | WITHDRAWAL | BONUS | INHERITANCE | LOAN.

Inductive Frequency : Type :=
| ONCE | MONTHLY | QUARTERLY | ANNUALLY.

(** The fields of a stored event that the service reads. [value] is
    [Number(event.value)]; [endDate] is [None] for [null]. *)
Record Event : Type := mkEvent {
  type : EventType;
  value : Q;
  frequency : Frequency;
  startDate : Date.t;
  endDate : option Date.t
}.

Definition EventType_eqb (a b : EventType) : bool :=
  match a, b with
  | INCOME, INCOME | EXPENSE, EXPENSE | INVESTMENT, INVESTMENT
  | WITHDRAWAL, WITHDRAWAL | BONUS, BONUS | INHERITANCE, INHERITANCE
  | LOAN, LOAN => true
  | _, _ => false
  end.

(** [array.includes(x)] on a literal array of event types. *)
Definition includes (l : list EventType) (x : EventType) : bool :=
  existsb (EventType_eqb x) l.

(** ** Event applicability: [getMonthsDifference], [getEventsForMonth] *)

Definition getMonthsDifference (startDate targetDate : Date.t) : Z :=
  let yearDiff := Date.getFullYear targetDate - Date.getFullYear startDate in
  let monthDiff := Date.getMonth targetDate - Date.getMonth startDate in
  yearDiff * 12 + monthDiff.

(** The two [continue] guards at the top of the loop body. *)
Definition startsAfter (event : Event) (targetDate : Date.t) : bool :=
  Date.gtb (startDate event) targetDate.

Definition endsBefore (event : Event) (targetDate : Date.t) : bool :=
  match endDate event with
  | Some e => Date.ltb e targetDate
  | None => false
  end.

(** The [switch (event.frequency)]: [true] when the branch pushes the
    event. [%] is the JavaScript remainder, [Z.rem]. *)
Definition frequencyMatches (event : Event) (targetDate : Date.t) : bool :=
  let startDate := startDate event in
  match frequency event with
  | ONCE =>
      (Date.getFullYear startDate =? Date.getFullYear targetDate)
      && (Date.getMonth startDate =? Date.getMonth targetDate)
  | MONTHLY => true
  | QUARTERLY =>
      let monthsSinceStart := getMonthsDifference startDate targetDate in
      Z.rem monthsSinceStart 3 =? 0
  | ANNUALLY => Date.getMonth startDate =? Date.getMonth targetDate
  end.

(** One iteration of the loop of [getEventsForMonth]: does it push? *)
Definition eventApplies (event : Event) (targetDate : Date.t) : bool :=
  if startsAfter event targetDate then false
  else if endsBefore event targetDate then false
  else frequencyMatches event targetDate.

Definition getEventsForMonth (events : list Event) (targetDate : Date.t)
  : list Event :=
  fold_left
    (fun applicableEvents event =>
       if eventApplies event targetDate
       then applicableEvents ++ [event]
       else applicableEvents)
    events [].

(** ** Numbers of the simulator *)

Local Open Scope Q_scope.

(** [Math.round(x)]: the nearest integer, ties towards plus infinity. *)
Definition Math_round (x : Q) : Z := Qfloor (x + (1 # 2)).

(** [Math.round(x * 100) / 100]. *)
Definition round2 (x : Q) : Q := inject_Z (Math_round (x * 100)) / 100.

(** [Math.max(0, x)]. *)
Definition Math_max (a b : Q) : Q := Qmax a b.

(** ** The simulator: [simulateWealthCurve] *)

Record ProjectionPoint : Type := mkPoint {
  year : Z;
  projectedValue : Q
}.

Record WealthProjectionParams : Type := mkParams {
  initialValue : Q;
  interestRate : Q;
  events : list Event;
  projectionYears : Z
}.

(** Body of [for (const event of eventsThisMonth)]. *)
Definition applyEvent (currentValue : Q) (event : Event) : Q :=
  let eventValue := value event in
  if includes [INCOME; BONUS; INHERITANCE; INVESTMENT] (type event)
  then currentValue + eventValue
  else if includes [EXPENSE; WITHDRAWAL; LOAN] (type event)
  then currentValue - eventValue
  else currentValue.

(** Body of [for (let month = 0; month < 12; month++)]. *)
Definition monthStep (monthlyRate : Q) (events : list Event) (targetYear : Z)
    (currentValue : Q) (month : Z) : Q :=
  let currentValue := currentValue * (1 + monthlyRate) in
  let monthDate := Date.make targetYear month 1 in
  let eventsThisMonth := getEventsForMonth events monthDate in
  let currentValue := fold_left applyEvent eventsThisMonth currentValue in
  Math_max 0 currentValue.

(** The values 0, 1, ..., n-1 of a counting loop. *)
Definition range (n : nat) : list Z := map Z.of_nat (seq 0 n).

(** The inner loop: the twelve months of [targetYear]. *)
Definition simulateYear (monthlyRate : Q) (events : list Event)
    (targetYear : Z) (currentValue : Q) : Q :=
  fold_left (monthStep monthlyRate events targetYear) (range 12) currentValue.

(** Body of [for (let year = 0; year <= projectionYears; year++)], on the
    pair of the two mutable locals [currentValue] and [projectionData]. *)
Definition yearStep (currentYear : Z) (monthlyRate : Q) (events : list Event)
    (st : Q * list ProjectionPoint) (year : Z) : Q * list ProjectionPoint :=
  let '(currentValue, projectionData) := st in
  let targetYear := (currentYear + year)%Z in
  let currentValue := simulateYear monthlyRate events targetYear currentValue in
  (currentValue,
   projectionData ++ [mkPoint targetYear (round2 currentValue)]).

(** Without events: the point pushed by the iteration [year = i], the
    principal compounded over the months of the years 0 to [i]. *)
Definition compoundedPoint (currentYear : Z) (initial monthlyRate : Q)
    (i : nat) : ProjectionPoint :=
  mkPoint (currentYear + Z.of_nat i)
    (round2 (initial * (1 + monthlyRate) ^ (12 * (Z.of_nat i + 1)))).

(** The state of the locals when the outer loop exits. *)
Definition simulateState (currentYear : Z) (params : WealthProjectionParams)
  : Q * list ProjectionPoint :=
  let monthlyRate := interestRate params / 12 in
  fold_left (yearStep currentYear monthlyRate (events params))
    (range (Z.to_nat (projectionYears params + 1)))
    (initialValue params, []).

Definition simulateWealthCurve (currentYear : Z) (params : WealthProjectionParams)
  : list ProjectionPoint :=
  snd (simulateState currentYear params).

(** [currentValue] when the outer loop exits (before the last rounding). *)
Definition finalCurrentValue (currentYear : Z) (params : WealthProjectionParams)
  : Q :=
  fst (simulateState currentYear params).

(** The loop as the specification words it, for comparison with the code:
    the twelve months run only [if yearOffset > 0], so that year 0 is a
    snapshot of the starting value. *)
Definition specYearStep (currentYear : Z) (monthlyRate : Q)
    (events : list Event) (st : Q * list ProjectionPoint) (yearOffset : Z)
  : Q * list ProjectionPoint :=
  let '(value, output) := st in
  let targetYear := (currentYear + yearOffset)%Z in
  let value :=
    if (0 <? yearOffset)%Z
    then simulateYear monthlyRate events targetYear value
    else value in
  (value, output ++ [mkPoint targetYear (round2 value)]).

Definition specSimulate (currentYear : Z) (params : WealthProjectionParams)
  : list ProjectionPoint :=
  snd (fold_left
         (specYearStep currentYear (interestRate params / 12) (events params))
         (range (Z.to_nat (projectionYears params + 1)))
         (initialValue params, [])).

(** [projectionData[projectionData.length - 1].projectedValue], the value
    the tests and the metrics read as the final value of a curve. *)
Definition finalProjectedValue (projectionData : list ProjectionPoint) : Q :=
  projectedValue (last projectionData (mkPoint 0 0)).

(** The net amount that the events of one month add to [currentValue]. *)
Definition netFlow (eventsThisMonth : list Event) : Q :=
  fold_left applyEvent eventsThisMonth 0.

(** An event of a kind that the simulator adds, with a non-negative
    amount. *)
Definition isInflow (event : Event) : Prop :=
  includes [INCOME; BONUS; INHERITANCE; INVESTMENT] (type event) = true
  /\ 0 <= value event.

(** A monthly income of amount [A] without end date. *)
Definition monthlyIncome (A : Q) (start : Date.t) : Event :=
  mkEvent INCOME A MONTHLY start None.

(** The stored events with one more event between them. *)
Definition insertEvent (before after : list Event) (event : Event)
  : list Event :=
  before ++ event :: after.

(** ** Numbers of the analytics: finite values and IEEE special values *)

Inductive num : Type :=
| Fin (q : Q)
| PInf
| NInf
| NaN.

Definition Qlt_bool (x y : Q) : bool := negb (Qle_bool y x).

Module Num.

Definition neg (a : num) : num :=
  match a with
  | Fin q => Fin (- q)
  | PInf => NInf
  | NInf => PInf
  | NaN => NaN
  end.

Definition add (a b : num) : num :=
  match a, b with
  | NaN, _ | _, NaN => NaN
  | Fin x, Fin y => Fin (x + y)
  | PInf, NInf | NInf, PInf => NaN
  | PInf, _ | _, PInf => PInf
  | NInf, _ | _, NInf => NInf
  end.

Definition sub (a b : num) : num := add a (neg b).

(** An infinity scaled by a finite factor [q]. *)
Definition scaleInf (positive : bool) (q : Q) : num :=
  match q ?= 0 with
  | Eq => NaN
  | Gt => if positive then PInf else NInf
  | Lt => if positive then NInf else PInf
  end.

Definition mul (a b : num) : num :=
  match a, b with
  | NaN, _ | _, NaN => NaN
  | Fin x, Fin y => Fin (x * y)
  | PInf, Fin q | Fin q, PInf => scaleInf true q
  | NInf, Fin q | Fin q, NInf => scaleInf false q
  | PInf, PInf | NInf, NInf => PInf
  | PInf, NInf | NInf, PInf => NInf
  end.

(** Division: a finite non-zero value over zero is an infinity of its
    sign, zero over zero is [NaN]. *)
Definition div (a b : num) : num :=
  match a, b with
  | NaN, _ | _, NaN => NaN
  | Fin x, Fin y =>
      if Qeq_bool y 0 then
        match x ?= 0 with
        | Eq => NaN
        | Gt => PInf
        | Lt => NInf
        end
      else Fin (x / y)
  | Fin _, PInf | Fin _, NInf => Fin 0
  | PInf, Fin q => if Qlt_bool q 0 then NInf else PInf
  | NInf, Fin q => if Qlt_bool q 0 then PInf else NInf
  | PInf, PInf | PInf, NInf | NInf, PInf | NInf, NInf => NaN
  end.

(** [Math.round] *)
Definition round (a : num) : num :=
  match a with
  | Fin q => Fin (inject_Z (Math_round q))
  | _ => a
  end.

(** [a > b]; every comparison with [NaN] is false. *)
Definition gtb (a b : num) : bool :=
  match a, b with
  | NaN, _ | _, NaN => false
  | Fin x, Fin y => Qlt_bool y x
  | PInf, PInf => false
  | PInf, _ => true
  | _, NInf => match a with NInf => false | _ => true end
  | _, _ => false
  end.

(** [a <= b] *)
Definition leb (a b : num) : bool :=
  match a, b with
  | NaN, _ | _, NaN => false
  | Fin x, Fin y => Qle_bool x y
  | NInf, _ => true
  | _, PInf => true
  | _, _ => false
  end.

End Num.

Definition isInteger (q : Q) : bool := (Z.pos (Qden (Qred q)) =? 1)%Z.

Definition isOddInteger (q : Q) : bool := isInteger q && Z.odd (Qnum (Qred q)).

(** ** Results of the analytics *)

Inductive SuggestionType : Type :=
| CONGRATULATIONS | INCREASE_CONTRIBUTION | ADJUST_ALLOCATION.

(** An object literal pushed to [suggestions]; [None] is [undefined]. *)
Record Suggestion : Type := mkSuggestion {
  suggestionType : SuggestionType;
  description : string;
  suggestedValue : option num;
  suggestedPeriod : option num
}.

Record PortfolioMetrics : Type := mkMetrics {
  finalValue : Q;
  totalGain : Q;
  totalGainPercent : Q;
  cagr : num;
  totalYears : Z
}.

Section Analytics.

(** [Math.pow(b, e)] for a finite [b > 0] and a finite [e] that is not an
    integer is specified only up to the implementation's approximation; it
    is a parameter of the model. *)
Variable pow_frac : Q -> Q -> Q.

(** Number to string conversion in a template literal. *)
Variable numToString : num -> string.

(** [Math.pow], following the cases of ECMAScript's
    [Number::exponentiate]; integer exponents are computed exactly. *)
Definition Math_pow (base exponent : num) : num :=
  match exponent with
  | NaN => NaN
  | Fin e =>
      if Qeq_bool e 0 then Fin 1
      else
        match base with
        | NaN => NaN
        | PInf => if Qlt_bool 0 e then PInf else Fin 0
        | NInf =>
            if Qlt_bool 0 e
            then (if isOddInteger e then NInf else PInf)
            else Fin 0
        | Fin b =>
            if Qeq_bool b 0 then (if Qlt_bool 0 e then Fin 0 else PInf)
            else if isInteger e then Fin (b ^ Qnum (Qred e))
            else if Qlt_bool b 0 then NaN
            else Fin (pow_frac b e)
        end
  | PInf =>
      match base with
      | NaN => NaN
      | PInf | NInf => PInf
      | Fin b =>
          match Qabs b ?= 1 with
          | Gt => PInf
          | Eq => NaN
          | Lt => Fin 0
          end
      end
  | NInf =>
      match base with
      | NaN => NaN
      | PInf | NInf => Fin 0
      | Fin b =>
          match Qabs b ?= 1 with
          | Gt => Fin 0
          | Eq => NaN
          | Lt => PInf
          end
      end
  end.

(** *** [generateAutoSuggestions] *)

(** [const monthlyRate = 0.04 / 12] *)
Definition assumedMonthlyRate : Q := 0.04 / 12.

(** [(Math.pow(1 + monthlyRate, months) - 1) / monthlyRate], the expression
    of [futureValueFactor] and of [shorterMonthsFactor]. *)
Definition annuityFactor (months : Q) : num :=
  Num.div
    (Num.sub (Math_pow (Fin (1 + assumedMonthlyRate)) (Fin months)) (Fin 1))
    (Fin assumedMonthlyRate).

Definition gapOf (currentPatrimony targetPatrimony : Q) : Q :=
  targetPatrimony - currentPatrimony.

Definition requiredMonthlyContribution (gap timeHorizonYears : Q) : num :=
  let monthsRemaining := timeHorizonYears * 12 in
  let futureValueFactor := annuityFactor monthsRemaining in
  Num.div (Fin gap) futureValueFactor.

Definition congratulations : Suggestion :=
  mkSuggestion CONGRATULATIONS
    "Parabéns! Você já atingiu sua meta patrimonial."
    (Some (Fin 0)) (Some (Fin 0)).

Definition adjustAllocation : Suggestion :=
  mkSuggestion ADJUST_ALLOCATION
    "Considere revisar sua alocação de ativos para uma estratégia mais agressiva, visando maior rentabilidade."
    None None.

(** The suggestions pushed inside [if (additionalContribution > 0)]. *)
Definition contributionSuggestions (gap timeHorizonYears
    currentMonthlyContribution : Q) (additionalContribution : num)
  : list Suggestion :=
  let first :=
    mkSuggestion INCREASE_CONTRIBUTION
      ("Aumente sua contribuição mensal em R$ "
         ++ numToString (Num.round additionalContribution)
         ++ " por " ++ numToString (Fin timeHorizonYears)
         ++ " anos para atingir sua meta.")%string
      (Some (Num.round additionalContribution))
      (Some (Fin (timeHorizonYears * 12))) in
  let shorterPeriod := Math_max 24 (timeHorizonYears * 12 * 0.7) in
  let shorterMonthsFactor := annuityFactor shorterPeriod in
  let higherContribution :=
    Num.sub (Num.div (Fin gap) shorterMonthsFactor)
      (Fin currentMonthlyContribution) in
  if Num.gtb higherContribution additionalContribution
  then
    [first;
     mkSuggestion INCREASE_CONTRIBUTION
       ("Alternativamente, aumente R$ "
          ++ numToString (Num.round higherContribution)
          ++ " por " ++ numToString (Num.round (Fin (shorterPeriod / 12)))
          ++ " anos para atingir a meta mais rapidamente.")%string
       (Some (Num.round higherContribution))
       (Some (Fin shorterPeriod))]
  else [first].

Definition generateAutoSuggestions (currentPatrimony targetPatrimony
    timeHorizonYears currentMonthlyContribution : Q) : list Suggestion :=
  let suggestions := [] in
  let gap := gapOf currentPatrimony targetPatrimony in
  if Qle_bool gap 0 then suggestions ++ [congratulations]
  else
    let requiredMonthlyContribution :=
      requiredMonthlyContribution gap timeHorizonYears in
    let additionalContribution :=
      Num.sub requiredMonthlyContribution (Fin currentMonthlyContribution) in
    let suggestions :=
      if Num.gtb additionalContribution (Fin 0)
      then suggestions
             ++ contributionSuggestions gap timeHorizonYears
                  currentMonthlyContribution additionalContribution
      else suggestions in
    let gapPercentage :=
      Num.mul (Num.div (Fin gap) (Fin targetPatrimony)) (Fin 100) in
    let suggestions :=
      if Num.gtb gapPercentage (Fin 50)
      then suggestions ++ [adjustAllocation]
      else suggestions in
    suggestions.

(** *** [calculatePortfolioMetrics] *)

(** [None] is the [null] returned for an empty curve. The field
    [projectionYears] of the result is [totalYears] here. *)
Definition calculatePortfolioMetrics (projectionData : list ProjectionPoint)
    (initialValue : Q) : option PortfolioMetrics :=
  match projectionData with
  | [] => None
  | first :: _ =>
      let finalValue := projectedValue (last projectionData first) in
      let totalYears := (Z.of_nat (List.length projectionData) - 1)%Z in
      let cagr :=
        if (0 <? totalYears)%Z
        then Num.sub
               (Math_pow (Num.div (Fin finalValue) (Fin initialValue))
                  (Num.div (Fin 1) (Fin (inject_Z totalYears))))
               (Fin 1)
        else Fin 0 in
      let totalGain := finalValue - initialValue in
      let totalGainPercent :=
        if Qlt_bool 0 initialValue
        then (totalGain / initialValue) * 100
        else 0 in
      Some (mkMetrics
              (round2 finalValue)
              (round2 totalGain)
              (round2 totalGainPercent)
              (Num.div (Num.round (Num.mul cagr (Fin 10000))) (Fin 100))
              totalYears)
  end.

End Analytics.

(** ** Concrete inputs used in the examples below *)

(** A one-time bonus dated 15 June 2025, as the event API accepts it. *)
Definition midJuneBonus : Event :=
  mkEvent BONUS 50000 ONCE (Date.mk 2025 5 15 0) None.

(** A quarterly investment that starts in February 2025. *)
Definition febQuarterly : Event :=
  mkEvent INVESTMENT 1000 QUARTERLY (Date.mk 2025 1 1 0) None.

(** A quarterly investment dated 15 February 2025, as the event API
    accepts it. *)
Definition midFebQuarterly : Event :=
  mkEvent INVESTMENT 1000 QUARTERLY (Date.mk 2025 1 15 0) None.

(** The parameters of the unit test "should calculate simple compound growth
    without events": 100000 at 12% a year, no events, one projected year. *)
Definition growthTestParams : WealthProjectionParams :=
  mkParams 100000 0.12 [] 1.

(** A monthly salary of 100 that starts on 1 January 2025. *)
Definition monthlySalary : Event :=
  mkEvent INCOME 100 MONTHLY (Date.mk 2025 0 1 0) None.

(** A large one-time expense in March 2025. *)
Definition largeExpense : Event :=
  mkEvent EXPENSE 200000 ONCE (Date.mk 2025 2 1 0) None.

(** Stand-ins for the two parameters of the analytics, to evaluate them on
    inputs whose exponents are integers: [Math_pow] computes those powers
    itself and does not call [pow_frac]. The printer writes the decimal digits
    of an integer. *)
Definition pow_frac_unit (b e : Q) : Q := 1.

Definition numToString_int (n : num) : string :=
  match n with
  | Fin q => DecimalString.NilZero.string_of_int (Z.to_int (Qfloor q))
  | PInf => "Infinity"
  | NInf => "-Infinity"
  | NaN => "NaN"
  end.

(** ** Notions used to state further properties *)

(** A date as the runtime keeps it: a month in 0..11, a day from 1 and a
    time of day from midnight. *)
Definition validDate (d : Date.t) : Prop :=
  (0 <= Date.getMonth d < 12 /\ 1 <= Date.getDate d
   /\ 0 <= Date.getTimeOfDay d)%Z.

(** The months 0..11 of the year [y] in which the loop of
    [getEventsForMonth] pushes [event]. *)
Definition monthsApplied (event : Event) (y : Z) : list Z :=
  filter (fun m => eventApplies event (Date.make y m 1)) (range 12).

(** An event of a kind that the simulator subtracts, with a non-negative
    amount. *)
Definition isOutflow (event : Event) : Prop :=
  includes [INCOME; BONUS; INHERITANCE; INVESTMENT] (type event) = false
  /\ includes [EXPENSE; WITHDRAWAL; LOAN] (type event) = true
  /\ 0 <= value event.

(** Two curves over the same years, the first one nowhere above the
    second. *)
Definition curveLe (c1 c2 : list ProjectionPoint) : Prop :=
  Forall2
    (fun p q => year p = year q /\ projectedValue p <= projectedValue q)
    c1 c2.

(** A curve whose projected values never decrease. *)
Definition nonDecreasing (curve : list ProjectionPoint) : Prop :=
  StronglySorted (fun p q => projectedValue p <= projectedValue q) curve.

(** A yearly insurance premium first due on 1 March 2024, and a quarterly
    dividend first paid on 1 February 2024. *)
Definition yearlyPremium : Event :=
  mkEvent EXPENSE 1200 ANNUALLY (Date.mk 2024 2 1 0) None.

Definition quarterlyDividend : Event :=
  mkEvent INCOME 300 QUARTERLY (Date.mk 2024 1 1 0) None.

(** A one-time inheritance on 1 September 2026, and a rent paid monthly
    until 20 June 2026. *)
Definition inheritance2026 : Event :=
  mkEvent INHERITANCE 80000 ONCE (Date.mk 2026 8 1 0) None.

Definition rentUntilJune2026 : Event :=
  mkEvent EXPENSE 1500 MONTHLY (Date.mk 2024 0 1 0) (Some (Date.mk 2026 5 20 0)).

(** A bonus paid once in 2019. *)
Definition bonus2019 : Event :=
  mkEvent BONUS 10000 ONCE (Date.mk 2019 3 1 0) None.
(** * Properties of the resolver *)

Local Open Scope Z_scope.

Lemma getEventsForMonth_acc (targetDate : Date.t) (events acc : list Event) :
  fold_left
    (fun applicableEvents event =>
       if eventApplies event targetDate
       then applicableEvents ++ [event]
       else applicableEvents)
    events acc
  = acc ++ filter (fun event => eventApplies event targetDate) events.
Proof.
  revert acc; induction events as [|e events IH]; intros acc; simpl.
  - now rewrite app_nil_r.
  - rewrite IH. destruct (eventApplies e targetDate); simpl.
    + now rewrite <- app_assoc.
    + reflexivity.
Qed.

(** The loop keeps, in the caller's order, the events whose iteration
    pushes. *)
Lemma getEventsForMonth_filter (events : list Event) (targetDate : Date.t) :
  getEventsForMonth events targetDate
  = filter (fun event => eventApplies event targetDate) events.
Proof. unfold getEventsForMonth. now rewrite getEventsForMonth_acc. Qed.

Lemma In_getEventsForMonth (events : list Event) (targetDate : Date.t)
    (event : Event) :
  In event (getEventsForMonth events targetDate)
  <-> In event events /\ eventApplies event targetDate = true.
Proof. rewrite getEventsForMonth_filter. apply filter_In. Qed.

Lemma eventApplies_in_bounds (event : Event) (targetDate : Date.t) :
  startsAfter event targetDate = false ->
  endsBefore event targetDate = false ->
  eventApplies event targetDate = frequencyMatches event targetDate.
Proof. intros Hs He. unfold eventApplies. now rewrite Hs, He. Qed.

(** Past the two guards, a [ONCE] event is pushed exactly in the year and
    month of its start date. *)
Lemma once_applies_in_bounds (events : list Event) (event : Event)
    (targetDate : Date.t) :
  In event events ->
  frequency event = ONCE ->
  startsAfter event targetDate = false ->
  endsBefore event targetDate = false ->
  (In event (getEventsForMonth events targetDate)
   <-> Date.getFullYear (startDate event) = Date.getFullYear targetDate
       /\ Date.getMonth (startDate event) = Date.getMonth targetDate).
Proof.
  intros Hin Hf Hs He.
  rewrite In_getEventsForMonth, (eventApplies_in_bounds _ _ Hs He).
  unfold frequencyMatches. rewrite Hf, andb_true_iff, !Z.eqb_eq. tauto.
Qed.

(** The start guard compares whole time values: a start date in the target
    month but after its first instant is "later" than the target. *)
Lemma startsAfter_same_month (event : Event) (y m : Z) :
  Date.getFullYear (startDate event) = y ->
  Date.getMonth (startDate event) = m ->
  1 < Date.getDate (startDate event) ->
  startsAfter event (Date.make y m 1) = true.
Proof.
  intros Hy Hm Hd. unfold startsAfter, Date.gtb, Date.compare; simpl.
  rewrite Hy, Hm, !Z.compare_refl.
  destruct (Z.compare_spec (Date.getDate (startDate event)) 1);
    solve [reflexivity | lia].
Qed.

(** A [ONCE] event dated after the first day of its month is pushed for no
    month that the simulator asks about. *)
Lemma once_mid_month_never_applies (event : Event) (y m : Z) :
  frequency event = ONCE ->
  1 < Date.getDate (startDate event) ->
  eventApplies event (Date.make y m 1) = false.
Proof.
  intros Hf Hd. unfold eventApplies.
  destruct (startsAfter event (Date.make y m 1)) eqn:Hs; [reflexivity|].
  destruct (endsBefore event (Date.make y m 1)); [reflexivity|].
  unfold frequencyMatches; rewrite Hf; simpl.
  destruct (Date.getFullYear (startDate event) =? y) eqn:Ey; [|reflexivity].
  destruct (Date.getMonth (startDate event) =? m) eqn:Em; [|reflexivity].
  apply Z.eqb_eq in Ey, Em.
  now rewrite (startsAfter_same_month _ _ _ Ey Em Hd) in Hs.
Qed.

Local Open Scope Q_scope.

(** C3, on the code: the bonus of 15 June 2025 is a [ONCE] event whose start
    date lies in the year 2025 and the month of June, and it has no end date,
    yet the resolver does not return it for June 2025: the start guard compares
    the full start date with the first instant of the target month and rejects
    it. The same holds for every month the simulator can ask about, so the
    event never contributes. *)
Theorem once_mid_month_rejected_in_own_month :
  let june2025 := Date.make 2025 5 1 in
  frequency midJuneBonus = ONCE
  /\ Date.getFullYear (startDate midJuneBonus) = Date.getFullYear june2025
  /\ Date.getMonth (startDate midJuneBonus) = Date.getMonth june2025
  /\ endDate midJuneBonus = None
  /\ startsAfter midJuneBonus june2025 = true
  /\ getEventsForMonth [midJuneBonus] june2025 = []
  /\ forall y m : Z, getEventsForMonth [midJuneBonus] (Date.make y m 1) = [].
Proof.
  cbv zeta. repeat split.
  intros y m. rewrite getEventsForMonth_filter. simpl.
  rewrite once_mid_month_never_applies; [reflexivity | reflexivity | simpl; lia].
Qed.

(** For a target month that passes the two guards of the code, a
    [QUARTERLY] event of the list is returned if and only if
    [monthsElapsed % 3 = 0], where [monthsElapsed] is
    [(target.year - start.year) * 12 + (target.month - start.month)], the
    value [getMonthsDifference] computes. *)
Lemma quarterly_applies_past_guards (events : list Event) (event : Event)
    (targetDate : Date.t) :
  In event events ->
  frequency event = QUARTERLY ->
  startsAfter event targetDate = false ->
  endsBefore event targetDate = false ->
  let monthsElapsed :=
    ((Date.getFullYear targetDate - Date.getFullYear (startDate event)) * 12
     + (Date.getMonth targetDate - Date.getMonth (startDate event)))%Z in
  getMonthsDifference (startDate event) targetDate = monthsElapsed
  /\ (In event (getEventsForMonth events targetDate)
      <-> Z.rem monthsElapsed 3 = 0%Z).
Proof.
  intros Hin Hf Hs He monthsElapsed. split; [reflexivity|].
  rewrite In_getEventsForMonth, (eventApplies_in_bounds _ _ Hs He).
  unfold frequencyMatches. rewrite Hf. cbv zeta.
  change (getMonthsDifference (startDate event) targetDate) with monthsElapsed.
  rewrite Z.eqb_eq. tauto.
Qed.

(** C7, on the code: the quarterly investment of 15 February 2025 has no end
    date, and for the target month February 2025 [monthsElapsed] is 0, so
    [monthsElapsed % 3 = 0]; yet the resolver does not return it for that
    month. The start guard compares the full start date with the first
    instant of the target month and rejects the event before the cadence is
    looked at: in 2025 the event fires in May, August and November only, and
    the occurrence of its own start month is lost. From 2026 on it fires in
    February, May, August and November. *)
Theorem quarterly_mid_month_skips_start_month :
  let feb2025 := Date.make 2025 1 1 in
  frequency midFebQuarterly = QUARTERLY
  /\ endDate midFebQuarterly = None
  /\ getMonthsDifference (startDate midFebQuarterly) feb2025 = 0%Z
  /\ Z.rem (getMonthsDifference (startDate midFebQuarterly) feb2025) 3 = 0%Z
  /\ startsAfter midFebQuarterly feb2025 = true
  /\ getEventsForMonth [midFebQuarterly] feb2025 = []
  /\ monthsApplied midFebQuarterly 2025 = [4; 7; 10]%Z
  /\ monthsApplied midFebQuarterly 2026 = [1; 4; 7; 10]%Z.
Proof. cbv zeta. repeat split. Qed.

(** The cadence follows the start month: the February event fires in May and
    not in April, the calendar quarter boundary. *)
Example quarterly_anchor_is_start_month :
  getEventsForMonth [febQuarterly] (Date.make 2025 4 1) = [febQuarterly]
  /\ getEventsForMonth [febQuarterly] (Date.make 2025 3 1) = [].
Proof. split; reflexivity. Qed.

(** * Properties of the simulator *)

(** ** Rounding and clamping *)

Lemma Math_round_nonneg (x : Q) : 0 <= x -> (0 <= Math_round x)%Z.
Proof.
  intros Hx. unfold Math_round.
  change 0%Z with (Qfloor 0). apply Qfloor_resp_le. lra.
Qed.

Lemma round2_nonneg (x : Q) : 0 <= x -> 0 <= round2 x.
Proof.
  intros Hx. unfold round2.
  apply Qle_shift_div_l; [reflexivity|].
  rewrite Qmult_0_l. change 0 with (inject_Z 0). rewrite <- Zle_Qle.
  apply Math_round_nonneg. lra.
Qed.

Lemma round2_comp (x y : Q) : x == y -> round2 x = round2 y.
Proof.
  intros H. unfold round2, Math_round.
  now rewrite (Qfloor_comp (x * 100 + (1 # 2)) (y * 100 + (1 # 2)))
    by (rewrite H; reflexivity).
Qed.

(** Rounding to cents moves a value by at most half a cent. *)
Lemma round2_lower (x : Q) : x - (1 # 200) < round2 x.
Proof.
  unfold round2, Math_round.
  apply Qlt_shift_div_l; [reflexivity|].
  pose proof (Qlt_floor (x * 100 + (1 # 2))) as H.
  rewrite inject_Z_plus in H. change (inject_Z 1) with 1 in H. lra.
Qed.

Lemma round2_upper (x : Q) : round2 x <= x + (1 # 200).
Proof.
  unfold round2, Math_round.
  apply Qle_shift_div_r; [reflexivity|].
  pose proof (Qfloor_le (x * 100 + (1 # 2))) as H. lra.
Qed.

(** ** Events of one month *)

Lemma applyEvent_shift (v : Q) (event : Event) :
  applyEvent v event == v + applyEvent 0 event.
Proof.
  unfold applyEvent.
  destruct (includes [INCOME; BONUS; INHERITANCE; INVESTMENT] (type event));
    [ring|].
  destruct (includes [EXPENSE; WITHDRAWAL; LOAN] (type event)); ring.
Qed.

(** The events of a month shift the running value by their net flow. *)
Lemma fold_applyEvent_netFlow (l : list Event) (v : Q) :
  fold_left applyEvent l v == v + netFlow l.
Proof.
  unfold netFlow. revert v; induction l as [|e l IH]; intros v; simpl.
  - ring.
  - rewrite (IH (applyEvent v e)), (IH (applyEvent 0 e)).
    rewrite (applyEvent_shift v e). ring.
Qed.

Lemma netFlow_app (l1 l2 : list Event) :
  netFlow (l1 ++ l2) == netFlow l1 + netFlow l2.
Proof.
  unfold netFlow at 1. rewrite fold_left_app.
  rewrite fold_applyEvent_netFlow. reflexivity.
Qed.

Lemma netFlow_inflows (l : list Event) :
  Forall isInflow l -> 0 <= netFlow l.
Proof.
  induction 1 as [|e l [He Hv] Hl IH].
  - unfold netFlow; simpl. lra.
  - change (e :: l) with ([e] ++ l). rewrite netFlow_app.
    unfold netFlow at 1; simpl. unfold applyEvent. rewrite He. lra.
Qed.

Lemma monthStep_netFlow (monthlyRate : Q) (evs : list Event) (targetYear : Z)
    (v : Q) (month : Z) :
  monthStep monthlyRate evs targetYear v month
  == Qmax 0 (v * (1 + monthlyRate)
             + netFlow (getEventsForMonth evs (Date.make targetYear month 1))).
Proof.
  unfold monthStep, Math_max. now rewrite fold_applyEvent_netFlow.
Qed.

Lemma monthStep_nonneg (monthlyRate : Q) (events : list Event)
    (targetYear : Z) (currentValue : Q) (month : Z) :
  0 <= monthStep monthlyRate events targetYear currentValue month.
Proof. unfold monthStep, Math_max. apply Q.le_max_l. Qed.

(** After at least one month, or from a non-negative value, the running
    value is non-negative. *)
Lemma months_nonneg (monthlyRate : Q) (events : list Event) (targetYear : Z)
    (months : list Z) (currentValue : Q) :
  0 <= currentValue \/ months <> [] ->
  0 <= fold_left (monthStep monthlyRate events targetYear) months currentValue.
Proof.
  revert currentValue; induction months as [|m months IH]; intros v H; simpl.
  - destruct H as [H|H]; [exact H | congruence].
  - apply IH. left. apply monthStep_nonneg.
Qed.

(** ** The outer loop *)

Section OuterLoop.

Variable currentYear : Z.
Variable monthlyRate : Q.
Variable evs : list Event.

Lemma yearStep_eq (v : Q) (acc : list ProjectionPoint) (y : Z) :
  yearStep currentYear monthlyRate evs (v, acc) y
  = (simulateYear monthlyRate evs (currentYear + y) v,
     acc ++ [mkPoint (currentYear + y)
               (round2 (simulateYear monthlyRate evs (currentYear + y) v))]).
Proof. reflexivity. Qed.

Lemma fold_yearStep_fst (ys : list Z) (v : Q) (acc : list ProjectionPoint) :
  fst (fold_left (yearStep currentYear monthlyRate evs) ys (v, acc))
  = fold_left (fun w y => simulateYear monthlyRate evs (currentYear + y) w)
      ys v.
Proof.
  revert v acc; induction ys as [|y ys IH]; intros v acc; cbn [fold_left];
    [reflexivity|].
  rewrite yearStep_eq. apply IH.
Qed.

Lemma fold_yearStep_years (ys : list Z) (v : Q) (acc : list ProjectionPoint) :
  map year (snd (fold_left (yearStep currentYear monthlyRate evs) ys (v, acc)))
  = (map year acc ++ map (fun y => (currentYear + y)%Z) ys)%list.
Proof.
  revert v acc; induction ys as [|y ys IH]; intros v acc; cbn [fold_left].
  - simpl. now rewrite app_nil_r.
  - rewrite yearStep_eq, IH, map_app, <- app_assoc. reflexivity.
Qed.

Lemma fold_yearStep_nonneg (ys : list Z) (v : Q) (acc : list ProjectionPoint) :
  Forall (fun p => 0 <= projectedValue p) acc ->
  Forall (fun p => 0 <= projectedValue p)
    (snd (fold_left (yearStep currentYear monthlyRate evs) ys (v, acc))).
Proof.
  revert v acc; induction ys as [|y ys IH]; intros v acc Hacc; cbn [fold_left].
  - exact Hacc.
  - rewrite yearStep_eq. apply IH. apply Forall_app; split; [exact Hacc|].
    constructor; [|constructor]. cbn [projectedValue]. apply round2_nonneg.
    apply months_nonneg. right. discriminate.
Qed.

(** The first snapshot is taken after the twelve months of the first
    iteration. *)
Lemma fold_yearStep_head (y : Z) (ys : list Z) (v : Q) :
  hd_error (snd (fold_left (yearStep currentYear monthlyRate evs) (y :: ys) (v, [])))
  = Some (mkPoint (currentYear + y)
            (round2 (simulateYear monthlyRate evs (currentYear + y) v))).
Proof.
  cbn [fold_left]. rewrite yearStep_eq. cbn [app].
  generalize (simulateYear monthlyRate evs (currentYear + y) v) at 1. intros v'.
  generalize (mkPoint (currentYear + y)
                (round2 (simulateYear monthlyRate evs (currentYear + y) v))).
  intros p.
  assert (H : forall l w acc,
             hd_error
               (snd (fold_left (yearStep currentYear monthlyRate evs) l
                       (w, p :: acc)))
             = Some p).
  { induction l as [|z l IH]; intros w acc; cbn [fold_left]; [reflexivity|].
    rewrite yearStep_eq. apply IH. }
  apply H.
Qed.

End OuterLoop.

Lemma range_length (n : nat) : List.length (range n) = n.
Proof. unfold range. now rewrite length_map, length_seq. Qed.

Lemma range_nth (n i : nat) :
  (i < n)%nat -> nth_error (range n) i = Some (Z.of_nat i).
Proof.
  intros H. unfold range. rewrite nth_error_map, nth_error_seq.
  destruct (Nat.ltb_spec i n); [reflexivity | lia].
Qed.

Lemma simulateWealthCurve_years (currentYear : Z)
    (params : WealthProjectionParams) :
  map year (simulateWealthCurve currentYear params)
  = map (fun y => (currentYear + y)%Z)
      (range (Z.to_nat (projectionYears params + 1))).
Proof.
  unfold simulateWealthCurve, simulateState. now rewrite fold_yearStep_years.
Qed.

(** C6: for [projectionYears >= 0] the simulator returns exactly
    [projectionYears + 1] points, and the point at index [i] carries the year
    [currentYear + i]: the years ascend one by one from the current calendar
    year. *)
Theorem simulateWealthCurve_length (currentYear : Z)
    (params : WealthProjectionParams) :
  (0 <= projectionYears params)%Z ->
  Z.of_nat (List.length (simulateWealthCurve currentYear params))
  = (projectionYears params + 1)%Z
  /\ forall i : nat,
      (Z.of_nat i <= projectionYears params)%Z ->
      option_map year (nth_error (simulateWealthCurve currentYear params) i)
      = Some (currentYear + Z.of_nat i)%Z.
Proof.
  intros Hy. pose proof (simulateWealthCurve_years currentYear params) as H.
  split.
  - rewrite <- (length_map year), H, length_map, range_length. lia.
  - intros i Hi. rewrite <- nth_error_map, H, nth_error_map, range_nth by lia.
    reflexivity.
Qed.

Lemma simulateWealthCurve_length_witness :
  (0 <= projectionYears growthTestParams)%Z
  /\ Z.of_nat (List.length (simulateWealthCurve 2025 growthTestParams)) = 2%Z.
Proof.
  split; [simpl; lia|].
  apply (simulateWealthCurve_length 2025 growthTestParams). simpl; lia.
Defined.

(** C5: every projected value of the returned sequence is non-negative,
    whatever the events and however large their amounts: each simulated month
    ends with the clamp [Math.max(0, currentValue)] applied to the grown value
    plus the net flow of the month's events, so a negative remainder is
    replaced by 0 and never carried over, and the yearly rounding keeps the
    sign. The property needs no assumption on the input, so it holds in
    particular for [initialValue >= 0]. *)
Theorem projectedValue_nonneg (currentYear : Z)
    (params : WealthProjectionParams) :
  let monthlyRate := interestRate params / 12 in
  (forall (targetYear : Z) (currentValue : Q) (month : Z),
      let next :=
        monthStep monthlyRate (events params) targetYear currentValue month in
      next == Qmax 0 (currentValue * (1 + monthlyRate)
                      + netFlow (getEventsForMonth (events params)
                                   (Date.make targetYear month 1)))
      /\ 0 <= next)
  /\ Forall (fun p => 0 <= projectedValue p)
       (simulateWealthCurve currentYear params).
Proof.
  cbv zeta. split.
  - intros. split; [apply monthStep_netFlow | apply monthStep_nonneg].
  - unfold simulateWealthCurve, simulateState.
    apply fold_yearStep_nonneg. constructor.
Qed.

(** A withdrawal larger than the whole wealth leaves zero, not a debt. *)
Example large_expense_clamped :
  map projectedValue
    (simulateWealthCurve 2025 (mkParams 100000 0.04 [largeExpense] 1))
  = [0.00; 0.00].
Proof. vm_compute. reflexivity. Qed.

(** ** Pure compounding: the simulator without events *)

Section NoEvents.

Variable currentYear : Z.
Variable initial : Q.
Variable monthlyRate : Q.

Hypothesis initial_nonneg : 0 <= initial.
Hypothesis factor_nonneg : 0 <= 1 + monthlyRate.

Lemma monthStep_no_events (targetYear : Z) (v : Q) (month : Z) :
  monthStep monthlyRate [] targetYear v month = Qmax 0 (v * (1 + monthlyRate)).
Proof. reflexivity. Qed.

Lemma power_succ (n : nat) :
  (1 + monthlyRate) ^ Z.of_nat (S n)
  == (1 + monthlyRate) ^ Z.of_nat n * (1 + monthlyRate).
Proof.
  rewrite Nat2Z.inj_succ. unfold Z.succ.
  rewrite Qpower_plus' by lia. reflexivity.
Qed.

Lemma months_no_events (targetYear : Z) (months : list Z) (v x : Q) :
  0 <= x -> v == x ->
  fold_left (monthStep monthlyRate [] targetYear) months v
  == x * (1 + monthlyRate) ^ Z.of_nat (List.length months).
Proof.
  revert v x; induction months as [|m months IH]; intros v x Hx Hv.
  - simpl. rewrite Hv. ring.
  - cbn [fold_left List.length]. rewrite monthStep_no_events.
    rewrite (IH _ (x * (1 + monthlyRate))).
    + rewrite power_succ. ring.
    + apply Qmult_le_0_compat; assumption.
    + rewrite Hv. apply Q.max_r. apply Qmult_le_0_compat; assumption.
Qed.

Lemma simulateYear_no_events (targetYear : Z) (v x : Q) :
  0 <= x -> v == x ->
  simulateYear monthlyRate [] targetYear v == x * (1 + monthlyRate) ^ 12.
Proof. intros Hx Hv. apply (months_no_events targetYear (range 12) v x Hx Hv). Qed.

Lemma years_no_events (n a : nat) (v : Q) (acc : list ProjectionPoint) :
  v == initial * (1 + monthlyRate) ^ (12 * Z.of_nat a) ->
  snd (fold_left (yearStep currentYear monthlyRate [])
         (map Z.of_nat (seq a n)) (v, acc))
  = (acc ++ map (compoundedPoint currentYear initial monthlyRate) (seq a n))%list.
Proof.
  revert a v acc; induction n as [|n IH]; intros a v acc Hv.
  - simpl. now rewrite app_nil_r.
  - cbn [seq map fold_left]. rewrite yearStep_eq.
    assert (Hnext :
      simulateYear monthlyRate [] (currentYear + Z.of_nat a) v
      == initial * (1 + monthlyRate) ^ (12 * Z.of_nat (S a))).
    { rewrite (simulateYear_no_events _ v
                 (initial * (1 + monthlyRate) ^ (12 * Z.of_nat a))).
      - replace (12 * Z.of_nat (S a))%Z with (12 * Z.of_nat a + 12)%Z by lia.
        destruct a as [|a].
        + simpl. ring.
        + rewrite Qpower_plus' by lia. ring.
      - apply Qmult_le_0_compat; [exact initial_nonneg|].
        apply Qpower_0_le. exact factor_nonneg.
      - exact Hv. }
    rewrite (IH (S a) _ _ Hnext), <- app_assoc. cbn [app].
    do 2 f_equal. unfold compoundedPoint. f_equal.
    apply round2_comp. rewrite Hnext.
    replace (12 * (Z.of_nat a + 1))%Z with (12 * Z.of_nat (S a))%Z by lia.
    reflexivity.
Qed.

End NoEvents.

(** In exact arithmetic: without events, from a non-negative principal and
    a monthly factor [1 + rate/12 >= 0], the point at index [i] is the
    principal compounded
    over [12 * (i + 1)] months, rounded to cents: the months of the current
    year are simulated before the first snapshot. *)
Lemma no_events_closed_form (currentYear : Z) (initial rate : Q)
    (years : Z) (i : nat) :
  0 <= initial ->
  0 <= 1 + rate / 12 ->
  (Z.of_nat i <= years)%Z ->
  nth_error (simulateWealthCurve currentYear (mkParams initial rate [] years)) i
  = Some (mkPoint (currentYear + Z.of_nat i)
            (round2 (initial * (1 + rate / 12) ^ (12 * (Z.of_nat i + 1))))).
Proof.
  intros Hi Hg Hle. unfold simulateWealthCurve, simulateState, range.
  cbn [initialValue interestRate events projectionYears].
  rewrite (years_no_events currentYear initial (rate / 12) Hi Hg).
  - cbn [app]. rewrite nth_error_map, nth_error_seq.
    destruct (Nat.ltb_spec i (Z.to_nat (years + 1))); [reflexivity | lia].
  - simpl. ring.
Qed.

(** Whatever the events, the first point is the value after the twelve
    monthly steps of the current year. *)
Lemma first_point_after_twelve_months (currentYear : Z)
    (params : WealthProjectionParams) :
  (0 <= projectionYears params)%Z ->
  hd_error (simulateWealthCurve currentYear params)
  = Some (mkPoint (currentYear + 0)
            (round2 (simulateYear (interestRate params / 12) (events params)
                       (currentYear + 0) (initialValue params)))).
Proof.
  intros Hy. unfold simulateWealthCurve, simulateState, range.
  destruct (Z.to_nat (projectionYears params + 1)) as [|n] eqn:E; [lia|].
  cbn [seq map]. apply fold_yearStep_head.
Qed.

(** C1, on the code: with the parameters of the unit test (100000 at 12% a
    year, no events, one projected year) the first point returned is
    112682.50, the principal after twelve months of growth, and not the
    untouched 100000 that the test asserts for [result[0]]: the loop
    [for (year = 0; ...)] runs the twelve monthly steps of the current year
    before it pushes the first snapshot. *)
Theorem first_point_is_compounded (currentYear : Z) :
  hd_error (simulateWealthCurve currentYear growthTestParams)
  = Some (mkPoint (currentYear + 0) 112682.50)
  /\ ~ 112682.50 == initialValue growthTestParams.
Proof.
  split.
  - rewrite first_point_after_twelve_months by (simpl; lia).
    vm_compute. reflexivity.
  - vm_compute. discriminate.
Qed.

(** C2, on the code: with the same parameters and [Y = 1] the point at
    index 1 is 126973.46, the principal compounded over 24 months, while
    [initialValue * (1 + r/12)^(12*Y)] rounded to cents is 112682.50, the
    value the unit test expects at [result[1]]. *)
Theorem point_at_horizon_has_extra_year (currentYear : Z) :
  nth_error (simulateWealthCurve currentYear growthTestParams) 1
  = Some (mkPoint (currentYear + 1) 126973.46)
  /\ round2 (100000 * (1 + 0.12 / 12) ^ (12 * 2)) = 126973.46
  /\ round2 (100000 * (1 + 0.12 / 12) ^ (12 * 1)) = 112682.50.
Proof.
  split; [|split].
  - unfold growthTestParams.
    rewrite (no_events_closed_form currentYear 100000 0.12 1 1)
      by (try (simpl; lia); vm_compute; discriminate).
    vm_compute. reflexivity.
  - vm_compute. reflexivity.
  - vm_compute. reflexivity.
Qed.

(** The loop of the specification, which skips the months of year 0, gives
    the two values that the unit test expects; the code gives each of them one
    year of growth more. *)
Example spec_loop_on_test_input :
  map projectedValue (specSimulate 2025 growthTestParams)
  = [100000.00; 112682.50]
  /\ map projectedValue (simulateWealthCurve 2025 growthTestParams)
     = [112682.50; 126973.46].
Proof. split; vm_compute; reflexivity. Qed.

(** ** Adding a monthly income *)

(** A start date that is not after the first month of the current year is
    not after any month of a simulated year. *)
Lemma started_stays_started (start : Date.t) (currentYear y m : Z) :
  Date.gtb start (Date.make currentYear 0 1) = false ->
  (0 <= y)%Z -> (0 <= m)%Z ->
  Date.gtb start (Date.make (currentYear + y) m 1) = false.
Proof.
  unfold Date.gtb, Date.compare; simpl. intros H Hy Hm.
  destruct (Z.compare_spec (Date.getFullYear start) currentYear);
    destruct (Z.compare_spec (Date.getFullYear start) (currentYear + y));
    try reflexivity; try lia; try discriminate;
    destruct (Z.compare_spec (Date.getMonth start) 0);
    destruct (Z.compare_spec (Date.getMonth start) m);
    try reflexivity; try lia; try discriminate;
    destruct (Z.compare_spec (Date.getDate start) 1);
    try reflexivity; try lia; try discriminate;
    destruct (Z.compare_spec (Date.getTimeOfDay start) 0);
    try reflexivity; try lia; try discriminate.
Qed.

Lemma In_range_nonneg (n : nat) (z : Z) : In z (range n) -> (0 <= z)%Z.
Proof.
  unfold range. rewrite in_map_iff. intros [k [<- _]]. lia.
Qed.

Section MonthlyIncome.

Variable currentYear : Z.
Variable monthlyRate : Q.
Variable A : Q.
Variable start : Date.t.
Variables before after : list Event.

Hypothesis rate_pos : 0 < monthlyRate.
Hypothesis A_pos : 0 < A.
Hypothesis started : Date.gtb start (Date.make currentYear 0 1) = false.
Hypothesis others_inflows : Forall isInflow (before ++ after).

Lemma income_applies (y m : Z) :
  (0 <= y)%Z -> (0 <= m)%Z ->
  eventApplies (monthlyIncome A start) (Date.make (currentYear + y) m 1) = true.
Proof.
  intros Hy Hm. unfold eventApplies, startsAfter, endsBefore; simpl.
  now rewrite started_stays_started.
Qed.

Lemma netFlow_with (y m : Z) :
  (0 <= y)%Z -> (0 <= m)%Z ->
  netFlow (getEventsForMonth (insertEvent before after (monthlyIncome A start))
             (Date.make (currentYear + y) m 1))
  == netFlow (getEventsForMonth (before ++ after) (Date.make (currentYear + y) m 1)) + A.
Proof.
  intros Hy Hm. unfold insertEvent.
  rewrite !getEventsForMonth_filter, !filter_app. cbn [filter].
  rewrite (income_applies y m Hy Hm).
  change (?x :: ?l) with ([x] ++ l).
  rewrite !netFlow_app. unfold netFlow at 2. simpl. unfold applyEvent; simpl.
  ring.
Qed.

Lemma netFlow_without_nonneg (d : Date.t) :
  0 <= netFlow (getEventsForMonth (before ++ after) d).
Proof.
  apply netFlow_inflows. rewrite getEventsForMonth_filter.
  rewrite Forall_forall in *.
  intros e He. apply filter_In in He. apply others_inflows. tauto.
Qed.

(** One month: a lead of [c] of the run with the income over the run without
    it grows to at least [c + A], and to more when there is a lead to
    compound. *)
Lemma month_gain (y m : Z) (v w c : Q) :
  (0 <= y)%Z -> (0 <= m)%Z ->
  0 <= v -> 0 <= c -> v + c <= w ->
  let v' := monthStep monthlyRate (before ++ after) (currentYear + y) v m in
  let w' :=
    monthStep monthlyRate (insertEvent before after (monthlyIncome A start))
      (currentYear + y) w m in
  0 <= v' /\ v' + (c + A) <= w' /\ (0 < c \/ v + c < w -> v' + (c + A) < w').
Proof.
  intros Hy Hm Hv Hc Hvw v' w'.
  pose proof (netFlow_without_nonneg (Date.make (currentYear + y) m 1)) as HF.
  assert (Hv' : v' <= v * (1 + monthlyRate)
                      + netFlow (getEventsForMonth (before ++ after)
                                   (Date.make (currentYear + y) m 1))).
  { unfold v'. rewrite monthStep_netFlow. apply Q.max_lub; [|lra].
    assert (0 <= v * (1 + monthlyRate)) by (apply Qmult_le_0_compat; lra). lra. }
  assert (Hw' : w * (1 + monthlyRate)
                + netFlow (getEventsForMonth (before ++ after)
                             (Date.make (currentYear + y) m 1)) + A <= w').
  { unfold w'. rewrite monthStep_netFlow, (netFlow_with y m Hy Hm).
    eapply Qle_trans; [|apply Q.le_max_r]. lra. }
  assert (H1 : 0 <= (w - v - c) * (1 + monthlyRate))
    by (apply Qmult_le_0_compat; lra).
  assert (H2 : 0 <= c * monthlyRate) by (apply Qmult_le_0_compat; lra).
  split; [apply monthStep_nonneg|]. split.
  - lra.
  - intros [Hc'|Hlt].
    + assert (0 < c * monthlyRate) by (apply Qmult_lt_0_compat; lra). lra.
    + assert (0 < (w - v - c) * (1 + monthlyRate))
        by (apply Qmult_lt_0_compat; lra). lra.
Qed.

Lemma inject_nat_succ (n : nat) :
  inject_Z (Z.of_nat (S n)) == inject_Z (Z.of_nat n) + 1.
Proof. rewrite Nat2Z.inj_succ. unfold Z.succ. rewrite inject_Z_plus. reflexivity. Qed.

(** Several months of one year: the lead grows by [A] a month, strictly
    more from the second month on. *)
Lemma months_gain (y : Z) (months : list Z) :
  (0 <= y)%Z ->
  (forall m, In m months -> (0 <= m)%Z) ->
  forall v w c : Q,
    0 <= v -> 0 <= c -> v + c <= w ->
    let n := inject_Z (Z.of_nat (List.length months)) in
    let v' :=
      fold_left (monthStep monthlyRate (before ++ after) (currentYear + y))
        months v in
    let w' :=
      fold_left
        (monthStep monthlyRate (insertEvent before after (monthlyIncome A start))
           (currentYear + y)) months w in
    0 <= v' /\ v' + (c + n * A) <= w'
    /\ ((0 < c \/ v + c < w) /\ months <> [] \/ (2 <= List.length months)%nat ->
        v' + (c + n * A) < w').
Proof.
  intros Hy. induction months as [|m months IH]; intros Hm v w c Hv Hc Hvw.
  - cbn zeta. cbn [fold_left List.length].
    change (inject_Z (Z.of_nat 0)) with 0.
    split; [exact Hv|]. split; [lra|].
    intros [[_ H]|H]; [congruence | lia].
  - cbn zeta. cbn [fold_left].
    assert (Hm0 : (0 <= m)%Z) by (apply Hm; left; reflexivity).
    destruct (month_gain y m v w c Hy Hm0 Hv Hc Hvw) as (Hv1 & Hle1 & Hlt1).
    assert (Hc1 : 0 <= c + A) by lra.
    destruct (IH (fun k Hk => Hm k (or_intror Hk)) _ _ _ Hv1 Hc1 Hle1)
      as (Hv' & Hle' & Hlt').
    cbn zeta in Hle', Hlt'.
    assert (En : inject_Z (Z.of_nat (List.length (m :: months)))
                 == inject_Z (Z.of_nat (List.length months)) + 1)
      by apply inject_nat_succ.
    split; [exact Hv'|]. split.
    + rewrite En. lra.
    + intros Hs. rewrite En.
      destruct months as [|m' months'].
      * cbn [fold_left List.length] in *.
        destruct Hs as [[Hs _]|Hs]; [|simpl in Hs; lia].
        specialize (Hlt1 Hs). change (inject_Z (Z.of_nat 0)) with 0. lra.
      * assert (v_strict :
          (0 < c + A \/ monthStep monthlyRate (before ++ after)
                          (currentYear + y) v m + (c + A)
                        < monthStep monthlyRate
                            (insertEvent before after (monthlyIncome A start))
                            (currentYear + y) w m)
          /\ m' :: months' <> []
          \/ (2 <= List.length (m' :: months'))%nat).
        { left. split; [left; lra | discriminate]. }
        specialize (Hlt' v_strict). lra.
Qed.

(** A whole year: the lead grows by strictly more than [12 * A]. *)
Lemma year_gain (y : Z) (v w c : Q) :
  (0 <= y)%Z -> 0 <= v -> 0 <= c -> v + c <= w ->
  let v' := simulateYear monthlyRate (before ++ after) (currentYear + y) v in
  let w' :=
    simulateYear monthlyRate (insertEvent before after (monthlyIncome A start))
      (currentYear + y) w in
  0 <= v' /\ v' + (c + 12 * A) < w'.
Proof.
  intros Hy Hv Hc Hvw.
  destruct (months_gain y (range 12) Hy (In_range_nonneg 12) v w c Hv Hc Hvw)
    as (H1 & _ & H3).
  split; [exact H1|]. apply H3. right. rewrite range_length. lia.
Qed.

(** Several years. *)
Lemma years_gain (years : list Z) :
  (forall y, In y years -> (0 <= y)%Z) ->
  forall v w c : Q,
    0 <= v -> 0 <= c -> v + c <= w ->
    let n := inject_Z (Z.of_nat (List.length years)) in
    let v' :=
      fold_left
        (fun x y => simulateYear monthlyRate (before ++ after) (currentYear + y) x)
        years v in
    let w' :=
      fold_left
        (fun x y =>
           simulateYear monthlyRate
             (insertEvent before after (monthlyIncome A start))
             (currentYear + y) x)
        years w in
    0 <= v' /\ v' + (c + n * (12 * A)) <= w'
    /\ (years <> [] -> v' + (c + n * (12 * A)) < w').
Proof.
  induction years as [|y years IH]; intros Hys v w c Hv Hc Hvw.
  - cbn zeta. cbn [fold_left List.length].
    change (inject_Z (Z.of_nat 0)) with 0.
    split; [exact Hv|]. split; [lra | congruence].
  - cbn zeta. cbn [fold_left].
    assert (Hy : (0 <= y)%Z) by (apply Hys; left; reflexivity).
    destruct (year_gain y v w c Hy Hv Hc Hvw) as (Hv1 & Hlt1).
    assert (Hc1 : 0 <= c + 12 * A) by lra.
    destruct (IH (fun k Hk => Hys k (or_intror Hk)) _ _ _ Hv1 Hc1
                (Qlt_le_weak _ _ Hlt1)) as (Hv' & Hle' & Hlt').
    cbn zeta in Hle', Hlt'.
    assert (En : inject_Z (Z.of_nat (List.length (y :: years)))
                 == inject_Z (Z.of_nat (List.length years)) + 1)
      by apply inject_nat_succ.
    split; [exact Hv'|]. split.
    + rewrite En. lra.
    + intros _. rewrite En.
      destruct years as [|y' years'].
      * cbn [fold_left List.length] in *.
        change (inject_Z (Z.of_nat 0)) with 0. lra.
      * assert (Hne : y' :: years' <> []) by discriminate.
        specialize (Hlt' Hne). lra.
Qed.

End MonthlyIncome.

(** The last point of the curve is the rounded final running value. *)
Lemma fold_yearStep_last (currentYear : Z) (monthlyRate : Q)
    (evs : list Event) (d : ProjectionPoint) (ys : list Z) (v : Q)
    (acc : list ProjectionPoint) :
  projectedValue (last acc d) = round2 v ->
  projectedValue
    (last (snd (fold_left (yearStep currentYear monthlyRate evs) ys (v, acc))) d)
  = round2 (fst (fold_left (yearStep currentYear monthlyRate evs) ys (v, acc))).
Proof.
  revert v acc; induction ys as [|y ys IH]; intros v acc H; cbn [fold_left].
  - exact H.
  - rewrite yearStep_eq. apply IH. now rewrite last_last.
Qed.

Lemma finalProjectedValue_round2 (currentYear : Z)
    (params : WealthProjectionParams) :
  (0 <= projectionYears params)%Z ->
  finalProjectedValue (simulateWealthCurve currentYear params)
  = round2 (finalCurrentValue currentYear params).
Proof.
  intros Hy.
  unfold finalProjectedValue, simulateWealthCurve, finalCurrentValue,
    simulateState, range.
  destruct (Z.to_nat (projectionYears params + 1)) as [|n] eqn:E; [lia|].
  cbn [seq map fold_left]. rewrite yearStep_eq.
  apply fold_yearStep_last. now rewrite last_last.
Qed.

(** In exact arithmetic: let the interest rate and the amount [A] be
    positive, the principal non-negative, and the other events inflows.
    Adding, anywhere in the list, a MONTHLY INCOME event of amount [A]
    without end date that has started by January of the current year raises
    the unrounded final value by strictly more than [12 * A] for each of the
    [projectionYears + 1] simulated years, and the final projected value by
    more than that amount less one cent. The statement relies on sums and
    products that do not round; in double precision a large balance absorbs
    a small amount. *)
Lemma monthly_income_gain (currentYear : Z) (initial rate : Q)
    (before after : list Event) (years : Z) (A : Q) (start : Date.t) :
  0 <= initial -> 0 < rate -> 0 < A -> (0 <= years)%Z ->
  Forall isInflow (before ++ after) ->
  startsAfter (monthlyIncome A start) (Date.make currentYear 0 1) = false ->
  let without := mkParams initial rate (before ++ after) years in
  let withIncome :=
    mkParams initial rate (insertEvent before after (monthlyIncome A start))
      years in
  let simulatedYears := inject_Z (years + 1) in
  finalCurrentValue currentYear without + simulatedYears * (12 * A)
  < finalCurrentValue currentYear withIncome
  /\ finalProjectedValue (simulateWealthCurve currentYear without)
     + simulatedYears * (12 * A) - 0.01
     < finalProjectedValue (simulateWealthCurve currentYear withIncome).
Proof.
  intros Hi Hr HA Hy Hin Hst without withIncome simulatedYears.
  assert (Hmr : 0 < rate / 12) by (apply Qlt_shift_div_l; lra).
  assert (Hraw : finalCurrentValue currentYear without
                 + simulatedYears * (12 * A)
                 < finalCurrentValue currentYear withIncome).
  { unfold finalCurrentValue, simulateState, without, withIncome.
    cbn [initialValue interestRate events projectionYears].
    rewrite !fold_yearStep_fst.
    destruct (years_gain currentYear (rate / 12) A start before after Hmr HA
                Hst Hin (range (Z.to_nat (years + 1)))
                (In_range_nonneg _) initial initial 0 Hi (Qle_refl 0))
      as (_ & _ & Hlt); [lra|].
    cbn zeta in Hlt. rewrite range_length, Z2Nat.id in Hlt by lia.
    assert (Hne : range (Z.to_nat (years + 1)) <> []).
    { intros E. apply (f_equal (@List.length Z)) in E.
      rewrite range_length in E. simpl in E. lia. }
    specialize (Hlt Hne). unfold simulatedYears. lra. }
  split; [exact Hraw|].
  rewrite !finalProjectedValue_round2 by (simpl; lia).
  pose proof (round2_lower (finalCurrentValue currentYear withIncome)).
  pose proof (round2_upper (finalCurrentValue currentYear without)).
  lra.
Qed.

Lemma monthly_income_gain_witness :
  finalCurrentValue 2025 (mkParams 100000 0.04 [] 1) + inject_Z 2 * (12 * 5000)
  < finalCurrentValue 2025
      (mkParams 100000 0.04 [monthlyIncome 5000 (Date.mk 2024 0 1 0)] 1)
  /\ finalProjectedValue (simulateWealthCurve 2025 (mkParams 100000 0.04 [] 1))
     + inject_Z 2 * (12 * 5000) - 0.01
     < finalProjectedValue
         (simulateWealthCurve 2025
            (mkParams 100000 0.04 [monthlyIncome 5000 (Date.mk 2024 0 1 0)] 1)).
Proof.
  apply (monthly_income_gain 2025 100000 0.04 [] [] 1 5000 (Date.mk 2024 0 1 0)).
  - vm_compute; discriminate.
  - reflexivity.
  - reflexivity.
  - lia.
  - constructor.
  - reflexivity.
Defined.


(** With a positive but tiny rate the gain of compounding is lost in the
    rounding to cents: the rounded increase is again exactly [12 * A]. *)
Example monthly_income_rounding_absorbs_gain :
  let salary := monthlyIncome 1 (Date.mk 2025 0 1 0) in
  finalProjectedValue (simulateWealthCurve 2025 (mkParams 0 (12 # 1000000) [salary] 0))
  == finalProjectedValue (simulateWealthCurve 2025 (mkParams 0 (12 # 1000000) [] 0))
     + 12 * 1.
Proof. vm_compute. reflexivity. Qed.

(** With outflows the zero clamp can swallow the income altogether. *)
Example monthly_income_clamped_away :
  let rent := mkEvent EXPENSE 1000 MONTHLY (Date.mk 2025 0 1 0) None in
  let salary := monthlyIncome 500 (Date.mk 2025 0 1 0) in
  finalProjectedValue (simulateWealthCurve 2025 (mkParams 0 0.12 [rent; salary] 0))
  == finalProjectedValue (simulateWealthCurve 2025 (mkParams 0 0.12 [rent] 0)).
Proof. vm_compute. reflexivity. Qed.

(** At rate 0 the rounding to cents can even leave less than [12 * A]: with
    [A] a tenth of a cent the final projected value rises by one cent, and
    [12 * A] is 1.2 cents. *)
Example monthly_income_below_twelve_A :
  let salary := monthlyIncome 0.001 (Date.mk 2025 0 1 0) in
  finalProjectedValue (simulateWealthCurve 2025 (mkParams 0 0 [salary] 0))
  == finalProjectedValue (simulateWealthCurve 2025 (mkParams 0 0 [] 0)) + 0.01
  /\ 0.01 < 12 * 0.001.
Proof. split; vm_compute; reflexivity. Qed.

(** * Properties of the analytics *)

Lemma Qlt_bool_iff (x y : Q) : Qlt_bool x y = true <-> x < y.
Proof.
  unfold Qlt_bool. rewrite negb_true_iff.
  split.
  - intros H. apply Qnot_le_lt. intros Hle.
    apply Qle_bool_iff in Hle. congruence.
  - intros H. destruct (Qle_bool y x) eqn:E; [|reflexivity].
    apply Qle_bool_iff in E. lra.
Qed.

Lemma Qlt_bool_false_iff (x y : Q) : Qlt_bool x y = false <-> y <= x.
Proof.
  unfold Qlt_bool. rewrite negb_false_iff. apply Qle_bool_iff.
Qed.

(** Whatever is required, a contribution that covers it leaves nothing to
    add. *)
Lemma covered_no_additional (required : num) (contribution : Q) :
  Num.leb required (Fin contribution) = true ->
  Num.gtb (Num.sub required (Fin contribution)) (Fin 0) = false.
Proof.
  destruct required as [r| | |]; simpl; try discriminate; try reflexivity.
  intros H. apply Qle_bool_iff in H. apply Qlt_bool_false_iff. lra.
Qed.

(** A positive gap of at most half the target is at most 50 percent. *)
Lemma small_gap_percentage (gap target : Q) :
  0 < gap -> gap <= 0.5 * target ->
  Num.gtb (Num.mul (Num.div (Fin gap) (Fin target)) (Fin 100)) (Fin 50) = false.
Proof.
  intros Hg Hle.
  assert (Ht : 0 < target) by lra.
  unfold Num.div. destruct (Qeq_bool target 0) eqn:E.
  - apply Qeq_bool_iff in E. lra.
  - simpl. apply Qlt_bool_false_iff.
    assert (gap / target <= 1 # 2).
    { apply Qle_shift_div_r; [exact Ht | lra]. }
    lra.
Qed.

(** The infinite growth ratio of a curve that starts from nothing survives
    the root, the subtraction, the scaling and the rounding of [cagr]. *)
Lemma cagr_of_infinite_ratio (pow_frac : Q -> Q -> Q) (totalYears : Z) :
  (0 < totalYears)%Z ->
  Num.div
    (Num.round
       (Num.mul
          (Num.sub
             (Math_pow pow_frac PInf
                (Num.div (Fin 1) (Fin (inject_Z totalYears))))
             (Fin 1))
          (Fin 10000)))
    (Fin 100)
  = PInf.
Proof.
  intros Hy.
  assert (Hpos : 0 < inject_Z totalYears).
  { change 0 with (inject_Z 0). rewrite <- Zlt_Qlt. exact Hy. }
  unfold Num.div at 2.
  destruct (Qeq_bool (inject_Z totalYears) 0) eqn:E.
  { apply Qeq_bool_iff in E. lra. }
  assert (He : 0 < 1 / inject_Z totalYears).
  { apply Qlt_shift_div_l; [exact Hpos | lra]. }
  unfold Math_pow.
  destruct (Qeq_bool (1 / inject_Z totalYears) 0) eqn:E0.
  { apply Qeq_bool_iff in E0. lra. }
  apply Qlt_bool_iff in He. rewrite He. reflexivity.
Qed.

(** Whenever the curve has at least two points, ends on a positive value and
    [initialValue] is 0, the reported [cagr] is [+Infinity]. *)
Lemma cagr_infinite_from_zero_start (pow_frac : Q -> Q -> Q)
    (p q : ProjectionPoint) (rest : list ProjectionPoint) :
  0 < projectedValue (last (p :: q :: rest) p) ->
  option_map cagr (calculatePortfolioMetrics pow_frac (p :: q :: rest) 0)
  = Some PInf.
Proof.
  intros Hfinal. unfold calculatePortfolioMetrics.
  cbv zeta. cbn [option_map cagr].
  set (totalYears := (Z.of_nat (List.length (p :: q :: rest)) - 1)%Z).
  assert (Hy : (0 < totalYears)%Z) by (unfold totalYears; simpl List.length; lia).
  destruct (Z.ltb_spec 0 totalYears) as [_|]; [|lia].
  assert (Hdiv : Num.div (Fin (projectedValue (last (p :: q :: rest) p))) (Fin 0)
                 = PInf).
  { unfold Num.div. change (Qeq_bool 0 0) with true. cbv iota.
    apply Qgt_alt in Hfinal. now rewrite Hfinal. }
  rewrite Hdiv. f_equal. now apply cagr_of_infinite_ratio.
Qed.

(** C8: when [targetPatrimony - currentPatrimony <= 0] the result is exactly
    the one-element list holding the CONGRATULATIONS suggestion, whose
    [suggestedValue] and [suggestedPeriod] are 0; nothing else is computed or
    pushed. *)
Theorem goal_reached_only_congratulations (pow_frac : Q -> Q -> Q)
    (numToString : num -> string)
    (currentPatrimony targetPatrimony timeHorizonYears
       currentMonthlyContribution : Q) :
  targetPatrimony - currentPatrimony <= 0 ->
  generateAutoSuggestions pow_frac numToString currentPatrimony targetPatrimony
    timeHorizonYears currentMonthlyContribution
  = [congratulations]
  /\ suggestionType congratulations = CONGRATULATIONS
  /\ suggestedValue congratulations = Some (Fin 0)
  /\ suggestedPeriod congratulations = Some (Fin 0).
Proof.
  intros Hgap. repeat split.
  unfold generateAutoSuggestions, gapOf. cbv zeta.
  apply Qle_bool_iff in Hgap. now rewrite Hgap.
Qed.

Lemma goal_reached_only_congratulations_witness :
  generateAutoSuggestions pow_frac_unit numToString_int 1000000 800000 10 5000
  = [congratulations]
  /\ suggestionType congratulations = CONGRATULATIONS
  /\ suggestedValue congratulations = Some (Fin 0)
  /\ suggestedPeriod congratulations = Some (Fin 0).
Proof.
  apply (goal_reached_only_congratulations pow_frac_unit numToString_int
           1000000 800000 10 5000).
  vm_compute. discriminate.
Defined.

(** C10: when the gap is positive, the current monthly contribution is at
    least the required monthly contribution, and the gap is at most 50% of
    the target, no suggestion is returned at all. *)
Theorem on_track_no_suggestions (pow_frac : Q -> Q -> Q)
    (numToString : num -> string)
    (currentPatrimony targetPatrimony timeHorizonYears
       currentMonthlyContribution : Q) :
  let gap := targetPatrimony - currentPatrimony in
  0 < gap ->
  Num.leb (requiredMonthlyContribution pow_frac gap timeHorizonYears)
    (Fin currentMonthlyContribution) = true ->
  gap <= 0.5 * targetPatrimony ->
  generateAutoSuggestions pow_frac numToString currentPatrimony targetPatrimony
    timeHorizonYears currentMonthlyContribution
  = [].
Proof.
  intros gap Hgap Hreq Hhalf.
  unfold generateAutoSuggestions, gapOf. cbv zeta. fold gap.
  destruct (Qle_bool gap 0) eqn:E.
  { apply Qle_bool_iff in E. lra. }
  rewrite (covered_no_additional _ _ Hreq).
  rewrite (small_gap_percentage gap targetPatrimony Hgap Hhalf).
  reflexivity.
Qed.

Lemma on_track_no_suggestions_witness :
  generateAutoSuggestions pow_frac_unit numToString_int 900 1000 1 100 = [].
Proof.
  apply (on_track_no_suggestions pow_frac_unit numToString_int 900 1000 1 100).
  - reflexivity.
  - vm_compute. reflexivity.
  - vm_compute. discriminate.
Defined.

(** C4, on the code: [totalGainPercent] is guarded by [initialValue > 0], but
    [cagr] is not. For the curve 0, 1000 and [initialValue = 0] the ratio
    [finalValue / initialValue] is [+Infinity] and so is the reported [cagr],
    while the guarded [totalGainPercent] is 0. Likewise a time horizon of 0
    years makes [futureValueFactor] zero, and [generateAutoSuggestions]
    returns a suggestion whose [suggestedValue] is [+Infinity]. *)
Theorem zero_divisors_not_guarded (pow_frac : Q -> Q -> Q)
    (numToString : num -> string) :
  let curve := [mkPoint 2024 0; mkPoint 2025 1000] in
  option_map cagr (calculatePortfolioMetrics pow_frac curve 0) = Some PInf
  /\ option_map totalGainPercent (calculatePortfolioMetrics pow_frac curve 0)
     = Some 0.00
  /\ option_map cagr
       (calculatePortfolioMetrics pow_frac [mkPoint 2024 0; mkPoint 2025 0] 0)
     = Some NaN
  /\ map suggestedValue (generateAutoSuggestions pow_frac numToString 0 100 0 0)
     = [Some PInf; None].
Proof.
  cbv zeta. repeat split.
Qed.

(** * Further properties of the resolver *)

Local Open Scope Z_scope.

(** The loop decides every event on its own and keeps the caller's order:
    the result for a concatenation is the concatenation of the results. *)
Theorem getEventsForMonth_app (events1 events2 : list Event)
    (targetDate : Date.t) :
  getEventsForMonth (events1 ++ events2) targetDate
  = getEventsForMonth events1 targetDate
    ++ getEventsForMonth events2 targetDate.
Proof. rewrite !getEventsForMonth_filter. apply filter_app. Qed.

Lemma compare_first_of_month_year_lt (d : Date.t) (y m : Z) :
  Date.getFullYear d < y -> Date.compare d (Date.make y m 1) = Lt.
Proof.
  intros H. unfold Date.compare; simpl.
  destruct (Z.compare_spec (Date.getFullYear d) y); [lia | reflexivity | lia].
Qed.

(** Whatever the recurrence, an event is not returned for a target month
    that lies before the month of its start date: a negative
    [getMonthsDifference] is rejected by the start guard. *)
Theorem never_before_start_month (event : Event) (y m : Z) :
  0 <= Date.getMonth (startDate event) < 12 ->
  0 <= m < 12 ->
  getMonthsDifference (startDate event) (Date.make y m 1) < 0 ->
  eventApplies event (Date.make y m 1) = false.
Proof.
  intros Hs Hm Hd. unfold getMonthsDifference in Hd; simpl in Hd.
  assert (Hgt : startsAfter event (Date.make y m 1) = true).
  { unfold startsAfter, Date.gtb, Date.compare; simpl.
    destruct (Z.compare_spec (Date.getFullYear (startDate event)) y);
      [|lia|reflexivity].
    destruct (Z.compare_spec (Date.getMonth (startDate event)) m);
      [lia|lia|reflexivity]. }
  unfold eventApplies. now rewrite Hgt.
Qed.

Lemma never_before_start_month_witness :
  eventApplies inheritance2026 (Date.make 2026 7 1) = false.
Proof.
  apply (never_before_start_month inheritance2026 2026 7);
    [simpl; lia | lia | vm_compute; reflexivity].
Defined.

Lemma endsBefore_first_of_month (event : Event) (e : Date.t) (y m : Z) :
  endDate event = Some e ->
  validDate e ->
  0 <= m < 12 ->
  (endsBefore event (Date.make y m 1) = true
   <-> 0 < getMonthsDifference e (Date.make y m 1)).
Proof.
  intros He (Hmo & Hd & Ht) Hm.
  unfold endsBefore, getMonthsDifference, Date.ltb, Date.compare.
  rewrite He; simpl.
  destruct (Z.compare_spec (Date.getFullYear e) y);
    [|split; [lia | reflexivity]|split; [discriminate | lia]].
  destruct (Z.compare_spec (Date.getMonth e) m);
    [|split; [lia | reflexivity]|split; [discriminate | lia]].
  destruct (Z.compare_spec (Date.getDate e) 1);
    [|lia|split; [discriminate | lia]].
  destruct (Z.compare_spec (Date.getTimeOfDay e) 0);
    [split; [discriminate | lia] | lia | split; [discriminate | lia]].
Qed.

(** The end bound works on whole months: for an event with a valid end
    date, the end guard rejects a target month exactly when that month lies
    after the month of the end date; in the month of the end date itself the
    event is still let through, whatever the day. *)
Theorem end_guard_is_month_level (event : Event) (e : Date.t) (y m : Z) :
  endDate event = Some e ->
  validDate e ->
  0 <= m < 12 ->
  (endsBefore event (Date.make y m 1) = true
   <-> 0 < getMonthsDifference e (Date.make y m 1)).
Proof. apply endsBefore_first_of_month. Qed.

Lemma end_guard_is_month_level_witness :
  endsBefore rentUntilJune2026 (Date.make 2026 5 1) = true
  <-> 0 < getMonthsDifference (Date.mk 2026 5 20 0) (Date.make 2026 5 1).
Proof.
  apply (end_guard_is_month_level rentUntilJune2026 (Date.mk 2026 5 20 0) 2026 5);
    [reflexivity | unfold validDate; simpl; lia | lia].
Defined.

(** A [ONCE] event dated at the first instant of a month, and not ended by
    then, is returned for that month and for no other month of any year. *)
Theorem once_first_of_month_applies_iff (event : Event) (sy sm y m : Z) :
  frequency event = ONCE ->
  startDate event = Date.make sy sm 1 ->
  endsBefore event (Date.make sy sm 1) = false ->
  (eventApplies event (Date.make y m 1) = true <-> y = sy /\ m = sm).
Proof.
  intros Hf Hs He. split.
  - unfold eventApplies.
    destruct (startsAfter event (Date.make y m 1)); [discriminate|].
    destruct (endsBefore event (Date.make y m 1)); [discriminate|].
    unfold frequencyMatches. rewrite Hf, Hs; simpl.
    rewrite andb_true_iff, !Z.eqb_eq. intuition congruence.
  - intros [-> ->]. unfold eventApplies. rewrite He.
    unfold startsAfter, Date.gtb, Date.compare, frequencyMatches.
    rewrite Hf, Hs; simpl. now rewrite !Z.compare_refl, !Z.eqb_refl.
Qed.

Lemma once_first_of_month_applies_iff_witness :
  eventApplies inheritance2026 (Date.make 2026 8 1) = true
  <-> 2026 = 2026 /\ 8 = 8.
Proof.
  apply (once_first_of_month_applies_iff inheritance2026 2026 8 2026 8);
    reflexivity.
Defined.

Lemma filter_range12_eq (sm : Z) :
  0 <= sm < 12 -> filter (fun m => sm =? m) (range 12) = [sm].
Proof.
  intros H.
  assert (C : sm = 0 \/ sm = 1 \/ sm = 2 \/ sm = 3 \/ sm = 4 \/ sm = 5
              \/ sm = 6 \/ sm = 7 \/ sm = 8 \/ sm = 9 \/ sm = 10 \/ sm = 11)
    by lia.
  repeat (destruct C as [->|C]; [reflexivity|]). now subst.
Qed.

(** In every year after the year of its start date, an [ANNUALLY] event
    without end date is returned in exactly one month, the month of its start
    date. *)
Theorem annually_once_per_year (event : Event) (y : Z) :
  frequency event = ANNUALLY ->
  endDate event = None ->
  0 <= Date.getMonth (startDate event) < 12 ->
  Date.getFullYear (startDate event) < y ->
  monthsApplied event y = [Date.getMonth (startDate event)].
Proof.
  intros Hf He Hm Hy. unfold monthsApplied.
  rewrite <- (filter_range12_eq _ Hm). apply filter_ext. intros m.
  unfold eventApplies, startsAfter, endsBefore, Date.gtb, frequencyMatches.
  rewrite (compare_first_of_month_year_lt _ y m Hy), He, Hf. reflexivity.
Qed.

Lemma annually_once_per_year_witness :
  monthsApplied yearlyPremium 2027 = [2].
Proof.
  apply (annually_once_per_year yearlyPremium 2027);
    [reflexivity | reflexivity | simpl; lia | simpl; lia].
Defined.

Lemma quarterly_test_mod (k d : Z) :
  (Z.rem (k * 12 + d) 3 =? 0) = (d mod 3 =? 0).
Proof.
  apply eq_true_iff_eq. rewrite !Z.eqb_eq.
  rewrite Z.rem_divide, Z.mod_divide by lia.
  split; intros [q Hq].
  - exists (q - k * 4). lia.
  - exists (q + k * 4). lia.
Qed.

Lemma filter_range12_quarter (sm : Z) :
  0 <= sm < 12 ->
  filter (fun m => (m - sm) mod 3 =? 0) (range 12)
  = [sm mod 3; sm mod 3 + 3; sm mod 3 + 6; sm mod 3 + 9].
Proof.
  intros H.
  assert (C : sm = 0 \/ sm = 1 \/ sm = 2 \/ sm = 3 \/ sm = 4 \/ sm = 5
              \/ sm = 6 \/ sm = 7 \/ sm = 8 \/ sm = 9 \/ sm = 10 \/ sm = 11)
    by lia.
  repeat (destruct C as [->|C]; [reflexivity|]). now subst.
Qed.

(** In every year after the year of its start date, a [QUARTERLY] event
    without end date is returned in exactly four months, three months apart,
    in step with the month of its start date. *)
Theorem quarterly_four_per_year (event : Event) (y : Z) :
  frequency event = QUARTERLY ->
  endDate event = None ->
  0 <= Date.getMonth (startDate event) < 12 ->
  Date.getFullYear (startDate event) < y ->
  let r := Date.getMonth (startDate event) mod 3 in
  monthsApplied event y = [r; r + 3; r + 6; r + 9].
Proof.
  intros Hf He Hm Hy r. unfold monthsApplied, r.
  rewrite <- (filter_range12_quarter _ Hm). apply filter_ext. intros m.
  unfold eventApplies, startsAfter, endsBefore, Date.gtb, frequencyMatches.
  rewrite (compare_first_of_month_year_lt _ y m Hy), He, Hf.
  unfold getMonthsDifference; simpl. apply quarterly_test_mod.
Qed.

Lemma quarterly_four_per_year_witness :
  monthsApplied quarterlyDividend 2026 = [1; 4; 7; 10].
Proof.
  apply (quarterly_four_per_year quarterlyDividend 2026);
    [reflexivity | reflexivity | simpl; lia | simpl; lia].
Defined.

Lemma filter_range12_upto (em : Z) :
  0 <= em < 12 ->
  filter (fun m => m <=? em) (range 12) = range (Z.to_nat (em + 1)).
Proof.
  intros H.
  assert (C : em = 0 \/ em = 1 \/ em = 2 \/ em = 3 \/ em = 4 \/ em = 5
              \/ em = 6 \/ em = 7 \/ em = 8 \/ em = 9 \/ em = 10 \/ em = 11)
    by lia.
  repeat (destruct C as [->|C]; [reflexivity|]). now subst.
Qed.

(** A [MONTHLY] event that started in an earlier year is returned, in the
    year of its end date, for every month up to and including the month of
    the end date, and for no later month. *)
Theorem monthly_until_end_month (event : Event) (e : Date.t) :
  frequency event = MONTHLY ->
  endDate event = Some e ->
  validDate e ->
  Date.getFullYear (startDate event) < Date.getFullYear e ->
  monthsApplied event (Date.getFullYear e)
  = range (Z.to_nat (Date.getMonth e + 1)).
Proof.
  intros Hf He Hv Hy. unfold monthsApplied.
  rewrite <- (filter_range12_upto (Date.getMonth e)) by apply Hv.
  apply filter_ext_in. intros m Hm.
  assert (Hm12 : 0 <= m < 12).
  { unfold range in Hm. apply in_map_iff in Hm. destruct Hm as (k & <- & Hk).
    apply in_seq in Hk. lia. }
  unfold eventApplies, startsAfter, Date.gtb, frequencyMatches.
  rewrite (compare_first_of_month_year_lt _ _ m Hy), Hf.
  pose proof (endsBefore_first_of_month event e (Date.getFullYear e) m He Hv Hm12)
    as Hend.
  unfold getMonthsDifference in Hend; simpl in Hend.
  destruct (endsBefore event (Date.make (Date.getFullYear e) m 1)).
  - destruct (Z.leb_spec m (Date.getMonth e)); [|reflexivity].
    destruct Hend as [Hend _]. specialize (Hend eq_refl). lia.
  - destruct (Z.leb_spec m (Date.getMonth e)); [reflexivity|].
    destruct Hend as [_ Hend]. assert (false = true) by (apply Hend; lia).
    discriminate.
Qed.

Lemma monthly_until_end_month_witness :
  monthsApplied rentUntilJune2026 (Date.getFullYear (Date.mk 2026 5 20 0))
  = range (Z.to_nat (Date.getMonth (Date.mk 2026 5 20 0) + 1)).
Proof.
  apply (monthly_until_end_month rentUntilJune2026 (Date.mk 2026 5 20 0));
    [reflexivity | reflexivity | unfold validDate; simpl; lia | simpl; lia].
Defined.

Local Open Scope Q_scope.

(** * Further properties of the simulator *)

Lemma round2_mono (x y : Q) : x <= y -> round2 x <= round2 y.
Proof.
  intros H. unfold round2, Math_round.
  apply Qmult_le_compat_r; [|discriminate].
  rewrite <- Zle_Qle. apply Qfloor_resp_le. lra.
Qed.

Lemma fold_left_ext_in {A B : Type} (f g : A -> B -> A) (l : list B) (a : A) :
  (forall x b, In b l -> f x b = g x b) ->
  fold_left f l a = fold_left g l a.
Proof.
  revert a; induction l as [|b l IH]; intros a H; simpl; [reflexivity|].
  rewrite (H a b) by (left; reflexivity).
  apply IH. intros x c Hc. apply H. right; exact Hc.
Qed.

(** A negative horizon runs no iteration of the outer loop: the result is
    empty. *)
Theorem negative_horizon_empty (currentYear : Z)
    (params : WealthProjectionParams) :
  (projectionYears params < 0)%Z ->
  simulateWealthCurve currentYear params = [].
Proof.
  intros H. unfold simulateWealthCurve, simulateState.
  replace (Z.to_nat (projectionYears params + 1)) with 0%nat by lia.
  reflexivity.
Qed.

Lemma negative_horizon_empty_witness :
  simulateWealthCurve 2025 (mkParams 1000 0.04 [monthlySalary] (-1)) = [].
Proof.
  apply (negative_horizon_empty 2025 (mkParams 1000 0.04 [monthlySalary] (-1))).
  simpl; lia.
Defined.

(** ** Monotonicity *)

Section Monotone.

Variable currentYear : Z.
Variable monthlyRate : Q.
Variables evs1 evs2 : list Event.

Hypothesis factor_nonneg : 0 <= 1 + monthlyRate.
Hypothesis flows_le :
  forall d : Date.t,
    netFlow (getEventsForMonth evs1 d) <= netFlow (getEventsForMonth evs2 d).

Lemma monthStep_mono (targetYear : Z) (v w : Q) (month : Z) :
  v <= w ->
  monthStep monthlyRate evs1 targetYear v month
  <= monthStep monthlyRate evs2 targetYear w month.
Proof.
  intros H. rewrite !monthStep_netFlow. apply Q.max_le_compat_l.
  pose proof (flows_le (Date.make targetYear month 1)).
  pose proof (Qmult_le_compat_r v w (1 + monthlyRate) H factor_nonneg). lra.
Qed.

Lemma months_mono (targetYear : Z) (months : list Z) (v w : Q) :
  v <= w ->
  fold_left (monthStep monthlyRate evs1 targetYear) months v
  <= fold_left (monthStep monthlyRate evs2 targetYear) months w.
Proof.
  revert v w; induction months as [|m months IH]; intros v w H; simpl.
  - exact H.
  - apply IH. now apply monthStep_mono.
Qed.

Lemma years_mono (ys : list Z) (v w : Q) (acc1 acc2 : list ProjectionPoint) :
  v <= w -> curveLe acc1 acc2 ->
  curveLe
    (snd (fold_left (yearStep currentYear monthlyRate evs1) ys (v, acc1)))
    (snd (fold_left (yearStep currentYear monthlyRate evs2) ys (w, acc2))).
Proof.
  revert v w acc1 acc2; induction ys as [|y ys IH];
    intros v w acc1 acc2 H Hacc; cbn [fold_left].
  - exact Hacc.
  - rewrite !yearStep_eq.
    assert (Hy : simulateYear monthlyRate evs1 (currentYear + y) v
                 <= simulateYear monthlyRate evs2 (currentYear + y) w)
      by (now apply months_mono).
    apply IH; [exact Hy|].
    apply Forall2_app; [exact Hacc|].
    constructor; [|constructor]. split; [reflexivity|].
    cbn [projectedValue]. now apply round2_mono.
Qed.

End Monotone.

(** With a monthly factor [1 + rate/12 >= 0], a larger principal gives a
    curve that is nowhere lower, whatever the events: the clamp and the
    rounding keep the order. *)
Theorem larger_principal_never_lower (currentYear : Z) (initial1 initial2 rate : Q)
    (evs : list Event) (years : Z) :
  0 <= 1 + rate / 12 ->
  initial1 <= initial2 ->
  curveLe
    (simulateWealthCurve currentYear (mkParams initial1 rate evs years))
    (simulateWealthCurve currentYear (mkParams initial2 rate evs years)).
Proof.
  intros Hg Hle. unfold simulateWealthCurve, simulateState.
  cbn [initialValue interestRate events projectionYears].
  apply years_mono; [exact Hg | intros d; apply Qle_refl | exact Hle | constructor].
Qed.

Lemma larger_principal_never_lower_witness :
  curveLe
    (simulateWealthCurve 2025 (mkParams 1000 0.04 [largeExpense] 2))
    (simulateWealthCurve 2025 (mkParams 500000 0.04 [largeExpense] 2)).
Proof.
  apply (larger_principal_never_lower 2025 1000 500000 0.04 [largeExpense] 2);
    vm_compute; discriminate.
Defined.

Lemma netFlow_insert (before after : list Event) (event : Event) (d : Date.t) :
  netFlow (getEventsForMonth (insertEvent before after event) d)
  == netFlow (getEventsForMonth (before ++ after) d)
     + (if eventApplies event d then applyEvent 0 event else 0).
Proof.
  unfold insertEvent. rewrite !getEventsForMonth_filter, !filter_app.
  cbn [filter]. destruct (eventApplies event d).
  - change (?x :: ?l) with ([x] ++ l). rewrite !netFlow_app.
    unfold netFlow at 2. simpl. ring.
  - rewrite !netFlow_app. ring.
Qed.

(** With a monthly factor [1 + rate/12 >= 0], adding an inflow (a kind that
    is added, with a non-negative amount) anywhere in the list lowers no point
    of the curve, and adding an outflow (a kind that is subtracted, with a
    non-negative amount) raises none. *)
Theorem inflow_raises_outflow_lowers (currentYear : Z) (initial rate : Q)
    (before after : list Event) (event : Event) (years : Z) :
  0 <= 1 + rate / 12 ->
  let without := mkParams initial rate (before ++ after) years in
  let withEvent := mkParams initial rate (insertEvent before after event) years in
  (isInflow event ->
   curveLe (simulateWealthCurve currentYear without)
     (simulateWealthCurve currentYear withEvent))
  /\ (isOutflow event ->
      curveLe (simulateWealthCurve currentYear withEvent)
        (simulateWealthCurve currentYear without)).
Proof.
  intros Hg without withEvent. subst without withEvent.
  unfold simulateWealthCurve, simulateState.
  cbn [initialValue interestRate events projectionYears]. split.
  - intros [Hin Hv].
    apply years_mono; [exact Hg | | apply Qle_refl | constructor].
    intros d. rewrite netFlow_insert.
    destruct (eventApplies event d); [|lra].
    unfold applyEvent. rewrite Hin. lra.
  - intros (Hin & Hout & Hv).
    apply years_mono; [exact Hg | | apply Qle_refl | constructor].
    intros d. rewrite netFlow_insert.
    destruct (eventApplies event d); [|lra].
    unfold applyEvent. rewrite Hin, Hout. lra.
Qed.

Lemma inflow_raises_outflow_lowers_witness :
  curveLe
    (simulateWealthCurve 2025
       (mkParams 100000 0.04 (insertEvent [monthlySalary] [] largeExpense) 1))
    (simulateWealthCurve 2025 (mkParams 100000 0.04 ([monthlySalary] ++ []) 1)).
Proof.
  apply (inflow_raises_outflow_lowers 2025 100000 0.04 [monthlySalary] []
           largeExpense 1).
  - vm_compute; discriminate.
  - repeat split. vm_compute; discriminate.
Defined.

(** ** A monthly income never lowers the curve *)




(** ** Growth without outflows *)

Lemma StronglySorted_snoc {A : Type} (R : A -> A -> Prop) (l : list A) (a : A) :
  StronglySorted R l -> Forall (fun x => R x a) l ->
  StronglySorted R (l ++ [a]).
Proof.
  induction 1 as [|x l Hl IH Hx]; intros Ha; simpl.
  - constructor; constructor.
  - inversion Ha; subst. constructor.
    + now apply IH.
    + apply Forall_app; split; [exact Hx|]. constructor; [assumption|constructor].
Qed.

Section Growth.

Variable currentYear : Z.
Variable monthlyRate : Q.
Variable evs : list Event.

Hypothesis rate_nonneg : 0 <= monthlyRate.
Hypothesis only_inflows : Forall isInflow evs.

Lemma monthStep_grows (targetYear : Z) (v : Q) (month : Z) :
  0 <= v -> v <= monthStep monthlyRate evs targetYear v month.
Proof.
  intros Hv. rewrite monthStep_netFlow.
  eapply Qle_trans; [|apply Q.le_max_r].
  assert (0 <= netFlow (getEventsForMonth evs (Date.make targetYear month 1))).
  { apply netFlow_inflows. rewrite getEventsForMonth_filter.
    rewrite Forall_forall in *. intros e He. apply filter_In in He.
    apply only_inflows. tauto. }
  assert (0 <= v * monthlyRate) by (apply Qmult_le_0_compat; assumption).
  lra.
Qed.

Lemma months_grow (targetYear : Z) (months : list Z) (v : Q) :
  0 <= v -> v <= fold_left (monthStep monthlyRate evs targetYear) months v.
Proof.
  revert v; induction months as [|m months IH]; intros v Hv; simpl.
  - apply Qle_refl.
  - pose proof (monthStep_grows targetYear v m Hv) as H.
    eapply Qle_trans; [exact H|]. apply IH. lra.
Qed.

Lemma years_grow (ys : list Z) (v : Q) (acc : list ProjectionPoint) :
  0 <= v ->
  nonDecreasing acc ->
  Forall (fun p => projectedValue p <= round2 v) acc ->
  nonDecreasing
    (snd (fold_left (yearStep currentYear monthlyRate evs) ys (v, acc))).
Proof.
  revert v acc; induction ys as [|y ys IH]; intros v acc Hv Hs Hb;
    cbn [fold_left].
  - exact Hs.
  - rewrite yearStep_eq.
    pose proof (months_grow (currentYear + y) (range 12) v Hv) as Hg.
    fold (simulateYear monthlyRate evs (currentYear + y) v) in Hg.
    pose proof (round2_mono _ _ Hg) as Hr.
    assert (Hb' : Forall
                    (fun p => projectedValue p
                              <= round2 (simulateYear monthlyRate evs
                                           (currentYear + y) v)) acc).
    { rewrite Forall_forall in *. intros p Hp.
      eapply Qle_trans; [apply Hb; exact Hp | exact Hr]. }
    apply IH.
    + lra.
    + apply StronglySorted_snoc; [exact Hs | exact Hb'].
    + apply Forall_app; split; [exact Hb'|].
      constructor; [apply Qle_refl | constructor].
Qed.

End Growth.

(** From a non-negative principal, with a non-negative interest rate and
    only inflows among the events, the projected values never decrease from
    one point of the curve to a later one. *)
Theorem inflows_only_curve_non_decreasing (currentYear : Z)
    (params : WealthProjectionParams) :
  0 <= initialValue params ->
  0 <= interestRate params ->
  Forall isInflow (events params) ->
  nonDecreasing (simulateWealthCurve currentYear params).
Proof.
  intros Hi Hr Hin. unfold simulateWealthCurve, simulateState.
  apply years_grow.
  - apply Qle_shift_div_l; lra.
  - exact Hin.
  - exact Hi.
  - constructor.
  - constructor.
Qed.

Lemma inflows_only_curve_non_decreasing_witness :
  nonDecreasing
    (simulateWealthCurve 2025 (mkParams 1000 0.04 [monthlySalary] 2)).
Proof.
  apply (inflows_only_curve_non_decreasing 2025
           (mkParams 1000 0.04 [monthlySalary] 2)).
  - vm_compute; discriminate.
  - vm_compute; discriminate.
  - constructor; [|constructor]. split; [reflexivity | vm_compute; discriminate].
Defined.

(** ** Ruin *)

Lemma netFlow_outflows (l : list Event) :
  Forall isOutflow l -> netFlow l <= 0.
Proof.
  induction 1 as [|e l (Hin & Hout & Hv) Hl IH].
  - unfold netFlow; simpl. lra.
  - change (e :: l) with ([e] ++ l). rewrite netFlow_app.
    unfold netFlow at 1; simpl. unfold applyEvent. rewrite Hin, Hout. lra.
Qed.

Section Ruin.

Variable currentYear : Z.
Variable monthlyRate : Q.
Variable evs : list Event.

Hypothesis only_outflows : Forall isOutflow evs.

Lemma monthStep_stays_zero (targetYear : Z) (v : Q) (month : Z) :
  v == 0 -> monthStep monthlyRate evs targetYear v month == 0.
Proof.
  intros Hv. rewrite monthStep_netFlow. apply Q.max_l.
  assert (netFlow (getEventsForMonth evs (Date.make targetYear month 1)) <= 0).
  { apply netFlow_outflows. rewrite getEventsForMonth_filter.
    rewrite Forall_forall in *. intros e He. apply filter_In in He.
    apply only_outflows. tauto. }
  rewrite Hv. lra.
Qed.

Lemma months_stay_zero (targetYear : Z) (months : list Z) (v : Q) :
  v == 0 -> fold_left (monthStep monthlyRate evs targetYear) months v == 0.
Proof.
  revert v; induction months as [|m months IH]; intros v Hv; simpl.
  - exact Hv.
  - apply IH. now apply monthStep_stays_zero.
Qed.

Lemma years_stay_zero (ys : list Z) (v : Q) (acc : list ProjectionPoint) :
  v == 0 ->
  Forall (fun p => projectedValue p == 0) acc ->
  Forall (fun p => projectedValue p == 0)
    (snd (fold_left (yearStep currentYear monthlyRate evs) ys (v, acc))).
Proof.
  revert v acc; induction ys as [|y ys IH]; intros v acc Hv Hacc;
    cbn [fold_left].
  - exact Hacc.
  - rewrite yearStep_eq.
    assert (H0 : simulateYear monthlyRate evs (currentYear + y) v == 0)
      by (now apply months_stay_zero).
    apply IH; [exact H0|].
    apply Forall_app; split; [exact Hacc|].
    constructor; [|constructor]. cbn [projectedValue].
    rewrite (round2_comp _ 0 H0). reflexivity.
Qed.

End Ruin.

(** Starting from nothing with only outflows among the events, every
    projected value is 0 at any interest rate: the clamp never lets a debt
    build up, and growth has nothing to act on. *)
Theorem only_outflows_from_zero_stays_zero (currentYear : Z) (rate : Q)
    (evs : list Event) (years : Z) :
  Forall isOutflow evs ->
  Forall (fun p => projectedValue p == 0)
    (simulateWealthCurve currentYear (mkParams 0 rate evs years)).
Proof.
  intros H. unfold simulateWealthCurve, simulateState.
  apply years_stay_zero; [exact H | reflexivity | constructor].
Qed.

Lemma only_outflows_from_zero_stays_zero_witness :
  Forall (fun p => projectedValue p == 0)
    (simulateWealthCurve 2025 (mkParams 0 0.12 [rentUntilJune2026] 3)).
Proof.
  apply (only_outflows_from_zero_stays_zero 2025 0.12 [rentUntilJune2026] 3).
  constructor; [|constructor].
  repeat split. vm_compute; discriminate.
Defined.

(** ** Events that can no longer apply *)

Lemma getEventsForMonth_insert_inactive (before after : list Event)
    (event : Event) (d : Date.t) :
  eventApplies event d = false ->
  getEventsForMonth (insertEvent before after event) d
  = getEventsForMonth (before ++ after) d.
Proof.
  intros H. unfold insertEvent.
  rewrite !getEventsForMonth_filter, !filter_app. cbn [filter].
  now rewrite H.
Qed.

(** An event that applies in no month from the current year on leaves the
    whole curve as it is without the event. *)
Lemma inactive_event_ignored (currentYear : Z) (initial rate : Q)
    (before after : list Event) (event : Event) (years : Z) :
  (forall y m : Z, (0 <= y)%Z ->
     eventApplies event (Date.make (currentYear + y) m 1) = false) ->
  simulateWealthCurve currentYear
    (mkParams initial rate (insertEvent before after event) years)
  = simulateWealthCurve currentYear
      (mkParams initial rate (before ++ after) years).
Proof.
  intros H. unfold simulateWealthCurve, simulateState.
  cbn [initialValue interestRate events projectionYears]. f_equal.
  apply fold_left_ext_in. intros [v acc] y Hy.
  apply In_range_nonneg in Hy. rewrite !yearStep_eq.
  assert (E : simulateYear (rate / 12) (insertEvent before after event)
                (currentYear + y) v
              = simulateYear (rate / 12) (before ++ after) (currentYear + y) v).
  { unfold simulateYear. apply fold_left_ext_in. intros x m _.
    unfold monthStep.
    now rewrite (getEventsForMonth_insert_inactive _ _ _ _ (H y m Hy)). }
  now rewrite E.
Qed.

(** A [ONCE] event dated in a year before the current one never fires: the
    curve is the same as without it, whatever its kind and amount. *)
Theorem past_once_event_ignored (currentYear : Z) (initial rate : Q)
    (before after : list Event) (event : Event) (years : Z) :
  frequency event = ONCE ->
  (Date.getFullYear (startDate event) < currentYear)%Z ->
  simulateWealthCurve currentYear
    (mkParams initial rate (insertEvent before after event) years)
  = simulateWealthCurve currentYear
      (mkParams initial rate (before ++ after) years).
Proof.
  intros Hf Hy. apply inactive_event_ignored. intros y m Hy0.
  unfold eventApplies.
  destruct (startsAfter event _); [reflexivity|].
  destruct (endsBefore event _); [reflexivity|].
  unfold frequencyMatches. rewrite Hf; simpl.
  destruct (Z.eqb_spec (Date.getFullYear (startDate event)) (currentYear + y));
    [lia | reflexivity].
Qed.

Lemma past_once_event_ignored_witness :
  simulateWealthCurve 2025
    (mkParams 1000 0.04 (insertEvent [monthlySalary] [] bonus2019) 2)
  = simulateWealthCurve 2025 (mkParams 1000 0.04 ([monthlySalary] ++ []) 2).
Proof.
  apply (past_once_event_ignored 2025 1000 0.04 [monthlySalary] [] bonus2019 2);
    [reflexivity | simpl; lia].
Defined.

(** An event whose end date lies in a year before the current one never
    fires, whatever its recurrence: the curve is the same as without it. *)
Theorem ended_event_ignored (currentYear : Z) (initial rate : Q)
    (before after : list Event) (event : Event) (e : Date.t) (years : Z) :
  endDate event = Some e ->
  (Date.getFullYear e < currentYear)%Z ->
  simulateWealthCurve currentYear
    (mkParams initial rate (insertEvent before after event) years)
  = simulateWealthCurve currentYear
      (mkParams initial rate (before ++ after) years).
Proof.
  intros He Hy. apply inactive_event_ignored. intros y m Hy0.
  unfold eventApplies.
  destruct (startsAfter event _); [reflexivity|].
  unfold endsBefore, Date.ltb. rewrite He.
  rewrite compare_first_of_month_year_lt by lia. reflexivity.
Qed.

Lemma ended_event_ignored_witness :
  simulateWealthCurve 2027
    (mkParams 1000 0.04 (insertEvent [] [monthlySalary] rentUntilJune2026) 2)
  = simulateWealthCurve 2027 (mkParams 1000 0.04 ([] ++ [monthlySalary]) 2).
Proof.
  apply (ended_event_ignored 2027 1000 0.04 [] [monthlySalary]
           rentUntilJune2026 (Date.mk 2026 5 20 0) 2);
    [reflexivity | simpl; lia].
Defined.

(** ** Longer horizons *)

Lemma range_succ (n : nat) : range (S n) = range n ++ [Z.of_nat n].
Proof. unfold range. now rewrite seq_S, map_app. Qed.

(** Projecting one more year only appends a point: the curve for the
    horizon [years] is kept as it is, and the new last point is the rounded
    value after the twelve months of the added year, continued from the
    unrounded running value. *)
Theorem one_more_year_appends (currentYear : Z) (initial rate : Q)
    (evs : list Event) (years : Z) :
  (0 <= years)%Z ->
  simulateWealthCurve currentYear (mkParams initial rate evs (years + 1))
  = simulateWealthCurve currentYear (mkParams initial rate evs years)
    ++ [mkPoint (currentYear + (years + 1))
          (round2
             (simulateYear (rate / 12) evs (currentYear + (years + 1))
                (finalCurrentValue currentYear
                   (mkParams initial rate evs years))))].
Proof.
  intros Hy.
  unfold simulateWealthCurve, finalCurrentValue, simulateState.
  cbn [initialValue interestRate events projectionYears].
  replace (Z.to_nat (years + 1 + 1)) with (S (Z.to_nat (years + 1))) by lia.
  rewrite range_succ, fold_left_app. cbn [fold_left].
  replace (Z.of_nat (Z.to_nat (years + 1))) with (years + 1)%Z by lia.
  destruct (fold_left (yearStep currentYear (rate / 12) evs)
              (range (Z.to_nat (years + 1))) (initial, [])) as [v acc].
  reflexivity.
Qed.

Lemma one_more_year_appends_witness :
  simulateWealthCurve 2025 (mkParams 1000 0.04 [monthlySalary] (1 + 1))
  = simulateWealthCurve 2025 (mkParams 1000 0.04 [monthlySalary] 1)
    ++ [mkPoint (2025 + (1 + 1))
          (round2
             (simulateYear (0.04 / 12) [monthlySalary] (2025 + (1 + 1))
                (finalCurrentValue 2025
                   (mkParams 1000 0.04 [monthlySalary] 1))))].
Proof.
  apply (one_more_year_appends 2025 1000 0.04 [monthlySalary] 1). lia.
Defined.

(** * Further properties of the analytics *)

(** ** Shape of the suggestions *)

Lemma contributionSuggestions_types (pow_frac : Q -> Q -> Q)
    (numToString : num -> string) (gap years contribution : Q)
    (additional : num) :
  let types :=
    map suggestionType
      (contributionSuggestions pow_frac numToString gap years contribution
         additional) in
  types = [INCREASE_CONTRIBUTION]
  \/ types = [INCREASE_CONTRIBUTION; INCREASE_CONTRIBUTION].
Proof.
  unfold contributionSuggestions. cbv zeta.
  destruct (Num.gtb _ additional); [right | left]; reflexivity.
Qed.

(** For a positive gap the result is, in this order, at most two
    INCREASE_CONTRIBUTION suggestions followed by at most one
    ADJUST_ALLOCATION suggestion; CONGRATULATIONS never appears, and the
    accelerated second contribution suggestion never appears without the
    first. *)
Theorem positive_gap_suggestion_shapes (pow_frac : Q -> Q -> Q)
    (numToString : num -> string)
    (currentPatrimony targetPatrimony timeHorizonYears
       currentMonthlyContribution : Q) :
  0 < targetPatrimony - currentPatrimony ->
  let types :=
    map suggestionType
      (generateAutoSuggestions pow_frac numToString currentPatrimony
         targetPatrimony timeHorizonYears currentMonthlyContribution) in
  types = []
  \/ types = [ADJUST_ALLOCATION]
  \/ types = [INCREASE_CONTRIBUTION]
  \/ types = [INCREASE_CONTRIBUTION; ADJUST_ALLOCATION]
  \/ types = [INCREASE_CONTRIBUTION; INCREASE_CONTRIBUTION]
  \/ types = [INCREASE_CONTRIBUTION; INCREASE_CONTRIBUTION; ADJUST_ALLOCATION].
Proof.
  intros Hgap. unfold generateAutoSuggestions, gapOf. cbv zeta.
  destruct (Qle_bool (targetPatrimony - currentPatrimony) 0) eqn:E.
  { apply Qle_bool_iff in E. lra. }
  destruct (Num.gtb (Num.sub _ _) (Fin 0)); destruct (Num.gtb (Num.mul _ _) (Fin 50));
    cbn [app map]; rewrite ?map_app; cbn [map suggestionType adjustAllocation];
    try (destruct (contributionSuggestions_types pow_frac numToString
                     (targetPatrimony - currentPatrimony) timeHorizonYears
                     currentMonthlyContribution
                     (Num.sub
                        (requiredMonthlyContribution pow_frac
                           (targetPatrimony - currentPatrimony) timeHorizonYears)
                        (Fin currentMonthlyContribution))) as [H|H];
         cbv zeta in H; rewrite ?app_nil_r, H); cbn [app]; tauto.
Qed.

Lemma positive_gap_suggestion_shapes_witness :
  let types :=
    map suggestionType
      (generateAutoSuggestions pow_frac_unit numToString_int 200000 1000000 1
         1000) in
  types = []
  \/ types = [ADJUST_ALLOCATION]
  \/ types = [INCREASE_CONTRIBUTION]
  \/ types = [INCREASE_CONTRIBUTION; ADJUST_ALLOCATION]
  \/ types = [INCREASE_CONTRIBUTION; INCREASE_CONTRIBUTION]
  \/ types = [INCREASE_CONTRIBUTION; INCREASE_CONTRIBUTION; ADJUST_ALLOCATION].
Proof.
  apply (positive_gap_suggestion_shapes pow_frac_unit numToString_int 200000
           1000000 1 1000).
  reflexivity.
Defined.

Lemma gap_percentage_above_50 (gap target : Q) :
  0 < gap ->
  (Num.gtb (Num.mul (Num.div (Fin gap) (Fin target)) (Fin 100)) (Fin 50) = true
   <-> 0 <= target /\ target < 2 * gap).
Proof.
  intros Hg. unfold Num.div.
  destruct (Qeq_bool target 0) eqn:E.
  - apply Qeq_bool_iff in E.
    rewrite (proj1 (Qgt_alt gap 0) Hg). simpl.
    split; [intros _; lra | reflexivity].
  - apply Qeq_bool_neq in E. simpl. rewrite Qlt_bool_iff.
    assert (Hq : gap / target * target == gap) by (field; exact E).
    set (q := gap / target) in *.
    destruct (Qlt_le_dec 0 target) as [Hpos|Hneg].
    + split.
      * intros H. split; [lra|].
        assert (0 < (q - (1 # 2)) * target)
          by (apply Qmult_lt_0_compat; lra).
        lra.
      * intros [_ H].
        destruct (Qlt_le_dec (1 # 2) q) as [Hgt|Hle]; [lra|].
        assert (0 <= ((1 # 2) - q) * target)
          by (apply Qmult_le_0_compat; lra).
        lra.
    + split; [|lra].
      intros H.
      assert (0 <= q * - target) by (apply Qmult_le_0_compat; lra).
      lra.
Qed.

(** For a positive gap, ADJUST_ALLOCATION is suggested only if the target
    is not negative and the current patrimony is less than half the target,
    whatever the horizon and the current contribution. The subtraction, the
    division and the scaling by 100 that lead to the test [> 50] are monotone,
    so their rounding cannot let a smaller gap through. *)
Theorem adjust_allocation_only_if (pow_frac : Q -> Q -> Q)
    (numToString : num -> string)
    (currentPatrimony targetPatrimony timeHorizonYears
       currentMonthlyContribution : Q) :
  0 < targetPatrimony - currentPatrimony ->
  In ADJUST_ALLOCATION
    (map suggestionType
       (generateAutoSuggestions pow_frac numToString currentPatrimony
          targetPatrimony timeHorizonYears currentMonthlyContribution)) ->
  0 <= targetPatrimony /\ 2 * currentPatrimony < targetPatrimony.
Proof.
  intros Hgap. unfold generateAutoSuggestions, gapOf. cbv zeta.
  destruct (Qle_bool (targetPatrimony - currentPatrimony) 0) eqn:E.
  { apply Qle_bool_iff in E. lra. }
  pose proof (gap_percentage_above_50 (targetPatrimony - currentPatrimony)
                targetPatrimony Hgap) as Hpct.
  set (contrib :=
         if Num.gtb _ (Fin 0) then [] ++ contributionSuggestions _ _ _ _ _ _
         else []).
  assert (Hno : ~ In ADJUST_ALLOCATION (map suggestionType contrib)).
  { unfold contrib. destruct (Num.gtb _ (Fin 0)); [|intros []].
    cbn [app].
    destruct (contributionSuggestions_types pow_frac numToString
                (targetPatrimony - currentPatrimony) timeHorizonYears
                currentMonthlyContribution
                (Num.sub
                   (requiredMonthlyContribution pow_frac
                      (targetPatrimony - currentPatrimony) timeHorizonYears)
                   (Fin currentMonthlyContribution))) as [H|H];
      cbv zeta in H; rewrite H; simpl; intuition discriminate. }
  destruct (Num.gtb (Num.mul _ _) (Fin 50)).
  - intros _. destruct Hpct as [Hp _]. specialize (Hp eq_refl). lra.
  - intros H. contradiction.
Qed.

Lemma adjust_allocation_only_if_witness :
  0 <= 1000000 /\ 2 * 200000 < 1000000.
Proof.
  apply (adjust_allocation_only_if pow_frac_unit numToString_int 200000 1000000
           1 1000).
  - reflexivity.
  - vm_compute. right. left. reflexivity.
Defined.

(** ** Whole-year horizons *)






(** ** Metrics *)







